(** * The TCP transport of casbin-mesh (pkg/transport/tcp/tcp.go)

    A shallow embedding of the transport: the [Addr] and [Transport]
    structs, the three constructors, the methods [Open], [Dial], [Accept],
    [Close] and [Addr], and the helper [createTLSConfig].

    Go code is embedded as a program over the calls it makes into the
    standard library ([net], [crypto/tls], [log]) and over the heap cell
    of the [*Transport] receiver.  Programs are run against a model of the
    operating system (listening sockets, files, remote peers, the log). *)

From stdpp Require Import base strings list gmap.

Open Scope string_scope.
Open Scope list_scope.

(** ** Values of the standard library the source handles *)

(** An [error] interface value; [None] is [nil]. *)
Inductive error_value : Type :=
| OpError (op : string) (addr : string) (msg : string)
| PathError (op : string) (path : string) (msg : string)
| TLSError (msg : string).

Definition error := option error_value.

(** [err.Error()] *)
Definition Error (e : error_value) : string :=
  match e with
  | OpError op addr msg => op +:+ " tcp " +:+ addr +:+ ": " +:+ msg
  | PathError op path msg => op +:+ " " +:+ path +:+ ": " +:+ msg
  | TLSError msg => "tls: " +:+ msg
  end.

(** [time.Duration]: nanoseconds. *)
Definition Duration := Z.
Bind Scope Z_scope with Duration.

(** [tls.Certificate], with the two fields [LoadX509KeyPair] fills. *)
Record tls_Certificate : Type := {
  Certificate : list string;
  PrivateKey : string;
}.

Definition tls_Certificate_zero : tls_Certificate :=
  {| Certificate := []; PrivateKey := "" |}.

Inductive tls_ClientAuthType : Type :=
| NoClientCert
| RequestClientCert
| RequireAnyClientCert
| VerifyClientCertIfGiven
| RequireAndVerifyClientCert.

(** [tls.Config], with the fields that decide the behaviour of a listener
    and of a dial.  The zero value of [ClientAuth] is [NoClientCert]. *)
Record tls_Config : Type := {
  Certificates : list tls_Certificate;
  InsecureSkipVerify : bool;
  ClientAuth : tls_ClientAuthType;
}.

(** [tls.Config{}] *)
Definition tls_Config_zero : tls_Config :=
  {| Certificates := []; InsecureSkipVerify := false; ClientAuth := NoClientCert |}.

(** [net.IP]: the source only builds one with [net.ParseIP], so an IP is
    kept as the text it was parsed from; the operating system decides
    what that text denotes. *)
Inductive net_IP : Type := ParseIP (s : string).

Record net_TCPAddr : Type := { IP : net_IP; Port : Z }.

(** [net.Dialer]; [LocalAddr] is an interface field, [None] is [nil]. *)
Record net_Dialer : Type := {
  Timeout : Duration;
  LocalAddr : option net_TCPAddr;
}.

(** A [net.Listener]: the listener of a socket, or a TLS listener around an
    inner one.  A [*tls.Config] that the source may leave [nil] is an
    option. *)
#[warnings="-register-all"]
Inductive Listener : Type :=
| TCPListener (fd : nat)
| TLSListener (inner : option Listener) (config : option tls_Config).

(** The interface value; [None] is [nil]. *)
Definition net_Listener := option Listener.

(** [tls.NewListener] only builds the wrapper. *)
Definition tls_NewListener (inner : net_Listener) (config : option tls_Config)
  : net_Listener :=
  Some (TLSListener inner config).

(** A [net.Conn]: a TCP connection (with the local IP it was pinned to, if
    any) or a TLS connection over one. *)
Inductive Conn : Type :=
| TCPConn (local : option string) (remote : string)
| TLSClientConn (raw : Conn) (config : tls_Config)
| TLSServerConn (raw : Conn) (config : option tls_Config).

Definition net_Conn := option Conn.

(** ** The structs of the package *)

Record Addr : Type := { Hostname : string }.

(** The [net.Addr] interface. *)
Class net_Addr (A : Type) : Type := {
  net_Addr_Network : A → string;
  net_Addr_String : A → string;
}.

Definition Addr_Network (addr : Addr) : string := "tcp".

Definition Addr_String (addr : Addr) : string := Hostname addr.

#[global] Instance Addr_is_net_Addr : net_Addr Addr :=
  {| net_Addr_Network := Addr_Network; net_Addr_String := Addr_String |}.

Record Transport : Type := {
  ln : net_Listener;
  advAddr : Addr;
  certFile : string;
  certKey : string;
  remoteEncrypted : bool;
  skipVerify : bool;
  srcIP : string;
}.

(** [Transport{}] *)
Definition Transport_zero : Transport :=
  {| ln := None; advAddr := {| Hostname := "" |}; certFile := ""; certKey := "";
     remoteEncrypted := false; skipVerify := false; srcIP := "" |}.

(** The assignment [t.ln = v]. *)
Definition set_ln (v : net_Listener) (t : Transport) : Transport :=
  {| ln := v; advAddr := advAddr t; certFile := certFile t; certKey := certKey t;
     remoteEncrypted := remoteEncrypted t; skipVerify := skipVerify t;
     srcIP := srcIP t |}.

(** A [*Transport]: the index of the object in the heap. *)
Definition ptr := nat.

(** ** Go programs *)

(** The calls the package makes into the standard library. *)
Inductive Call : Type → Type :=
| net_Listen (network address : string) : Call (net_Listener * error)
| tls_LoadX509KeyPair (certFile keyFile : string) : Call (tls_Certificate * error)
| Dialer_Dial (d : net_Dialer) (network address : string) : Call (net_Conn * error)
| tls_DialWithDialer (d : net_Dialer) (network address : string) (config : tls_Config)
  : Call (net_Conn * error)
| Listener_Accept (l : Listener) : Call (net_Conn * error)
| Listener_Close (l : Listener) : Call error
| log_Println (args : list string) : Call unit.

(** A program returns, panics, allocates a [Transport], reads or updates
    one through a pointer, or makes a call and goes on with its result. *)
Inductive Go (A : Type) : Type :=
| Ret (a : A)
| Panic (msg : string)
| New (v : Transport) (k : ptr → Go A)
| Fetch (p : ptr) (k : Transport → Go A)
| Update (p : ptr) (f : Transport → Transport) (k : Go A)
| Sys {X : Type} (c : Call X) (k : X → Go A).

Arguments Ret {A} a.
Arguments Panic {A} msg.
Arguments New {A} v k.
Arguments Fetch {A} p k.
Arguments Update {A} p f k.
Arguments Sys {A X} c k.

Fixpoint bind {A B : Type} (m : Go A) (h : A → Go B) : Go B :=
  match m with
  | Ret a => h a
  | Panic msg => Panic msg
  | New v k => New v (λ p, bind (k p) h)
  | Fetch p k => Fetch p (λ t, bind (k t) h)
  | Update p f k => Update p f (bind k h)
  | Sys c k => Sys c (λ x, bind (k x) h)
  end.

Declare Scope go_scope.
Delimit Scope go_scope with go.
Notation "'let*' x ':=' m 'in' k" := (bind m (λ x, k))
  (at level 10, x pattern, m at level 100, k at level 200) : go_scope.
Notation "m ;;; k" := (bind m (λ _, k))
  (at level 100, right associativity) : go_scope.
Open Scope go_scope.

(** A call whose result is returned as it is. *)
Definition call {X : Type} (c : Call X) : Go X := Sys c Ret.

(** The field read [t.f]. *)
Definition field {X : Type} (t : ptr) (f : Transport → X) : Go X :=
  Fetch t (λ v, Ret (f v)).

(** The field assignment [t.ln = v]. *)
Definition assign_ln (t : ptr) (v : net_Listener) : Go unit :=
  Update t (set_ln v) (Ret tt).

Definition nil_dereference : string :=
  "runtime error: invalid memory address or nil pointer dereference".

(** A method call [l.m()] on an interface value: on [nil] the Go runtime
    panics. *)
Definition invoke {X : Type} (l : net_Listener) (m : Listener → Call X) : Go X :=
  match l with
  | None => Panic nil_dereference
  | Some l' => call (m l')
  end.

(** ** The package *)

Definition NewTransport : Go ptr :=
  New Transport_zero Ret.

Definition NewTLSTransport (certFile keyPath : string) (skipVerify : bool) : Go ptr :=
  New {| ln := None; advAddr := {| Hostname := "" |};
         certFile := certFile; certKey := keyPath;
         remoteEncrypted := true; skipVerify := skipVerify; srcIP := "" |} Ret.

Definition NewTransportFromListener (ln : net_Listener) (remoteEncrypted : bool)
    (skipVerify : bool) (addr : string) : Go ptr :=
  New {| ln := ln; advAddr := {| Hostname := addr |};
         certFile := ""; certKey := "";
         remoteEncrypted := remoteEncrypted; skipVerify := skipVerify;
         srcIP := "" |} Ret.

(** [make([]tls.Certificate, n)] *)
Definition make_Certificates (n : nat) : list tls_Certificate :=
  replicate n tls_Certificate_zero.

Definition with_Certificates (cs : list tls_Certificate) (c : tls_Config) : tls_Config :=
  {| Certificates := cs; InsecureSkipVerify := InsecureSkipVerify c;
     ClientAuth := ClientAuth c |}.

Definition createTLSConfig (certFile keyFile : string) : Go (option tls_Config * error) :=
  let config := tls_Config_zero in
  let config := with_Certificates (make_Certificates 1) config in
  let* (cert, err) := call (tls_LoadX509KeyPair certFile keyFile) in
  let config := with_Certificates (<[0%nat := cert]> (Certificates config)) config in
  match err with
  | Some _ => Ret (None, err)
  | None => Ret (Some config, None)
  end.

Definition CreateTLSConfig := createTLSConfig.

Definition Open (t : ptr) (addr : string) : Go error :=
  let* (ln, err) := call (net_Listen "tcp" addr) in
  match err with
  | Some _ => Ret err
  | None =>
    let* certFile_ := field t certFile in
    if decide (certFile_ ≠ "") then
      let* certFile_ := field t certFile in
      let* certKey_ := field t certKey in
      let* (config, err) := createTLSConfig certFile_ certKey_ in
      match err with
      | Some _ => Ret err
      | None =>
        let ln := tls_NewListener ln config in
        assign_ln t ln ;;;
        Ret None
      end
    else
      assign_ln t ln ;;;
      Ret None
  end.

Definition Dial (t : ptr) (addr : string) (timeout : Duration) : Go (net_Conn * error) :=
  let dialer := {| Timeout := timeout; LocalAddr := None |} in
  let* srcIP_ := field t srcIP in
  let* dialer :=
    (if decide (srcIP_ ≠ "") then
       let* srcIP_ := field t srcIP in
       let netAddr := {| IP := ParseIP srcIP_; Port := 0 |} in
       Ret {| Timeout := timeout; LocalAddr := Some netAddr |}
     else Ret dialer) in
  let* remoteEncrypted_ := field t remoteEncrypted in
  if remoteEncrypted_ then
    let* skipVerify_ := field t skipVerify in
    let conf := {| Certificates := Certificates tls_Config_zero;
                   InsecureSkipVerify := skipVerify_;
                   ClientAuth := ClientAuth tls_Config_zero |} in
    call (log_Println ["doing a TLS dial"]) ;;;
    let* (conn, err) := call (tls_DialWithDialer dialer "tcp" addr conf) in
    Ret (conn, err)
  else
    let* (conn, err) := call (Dialer_Dial dialer "tcp" addr) in
    Ret (conn, err).

Definition Accept (t : ptr) : Go (net_Conn * error) :=
  let* ln_ := field t ln in
  let* (c, err) := invoke ln_ Listener_Accept in
  match err with
  | Some e => call (log_Println ["error accepting: "; Error e])
  | None => Ret tt
  end ;;;
  Ret (c, err).

Definition Close (t : ptr) : Go error :=
  let* ln_ := field t ln in
  if decide (ln_ ≠ None) then
    let* ln_ := field t ln in
    invoke ln_ Listener_Close
  else Ret None.

(** The method [Addr] of [Transport]; the returned [net.Addr] holds an
    [Addr]. *)
Definition Transport_Addr (t : ptr) : Go Addr :=
  field t advAddr.

(** ** The operating system *)

(** What a file holds, as far as [tls.LoadX509KeyPair] can tell: a
    certificate chain with the identity of its public key, a private key
    with its identity, or something that is neither. *)
Inductive File : Type :=
| CertPEM (chain : list string) (pub : string)
| KeyPEM (priv : string)
| OtherFile.

(** A listening socket: the address it was bound to, whether it is still
    open (and so holds the address), and the remote addresses of the
    connections waiting to be accepted. *)
Record Socket : Type := {
  sock_addr : string;
  sock_open : bool;
  backlog : list string;
}.

(** A remote endpoint that accepts connections. *)
Record Peer : Type := {
  speaks_tls : bool;
  cert_verifies : bool;
  latency : Duration;
}.

Record World : Type := {
  files : gmap string File;
  sockets : list Socket;
  unbindable : gset string;
  ips : gmap string bool;
  peers : gmap string Peer;
  stdlog : list (list string);
}.

Definition with_sockets (ss : list Socket) (w : World) : World :=
  {| files := files w; sockets := ss; unbindable := unbindable w; ips := ips w;
     peers := peers w; stdlog := stdlog w |}.

Definition with_stdlog (l : list (list string)) (w : World) : World :=
  {| files := files w; sockets := sockets w; unbindable := unbindable w;
     ips := ips w; peers := peers w; stdlog := l |}.

(** A socket holds [addr]. *)
Definition holds (addr : string) (s : Socket) : bool :=
  sock_open s && bool_decide (sock_addr s = addr).

(** Some socket is bound to [addr]. *)
Definition bound (w : World) (addr : string) : bool :=
  existsb (holds addr) (sockets w).

(** How a call ends: it returns, it panics, or it never returns. *)
Inductive Outcome (A : Type) : Type :=
| Returned (a : A)
| Panicked (msg : string)
| Blocked.

Arguments Returned {A} a.
Arguments Panicked {A} msg.
Arguments Blocked {A}.

(** [net.Listen]: the address must be one the system lets the process
    bind, and free. *)
Definition os_Listen (network address : string) (w : World)
  : (net_Listener * error) * World :=
  if decide (network ≠ "tcp") then
    ((None, Some (OpError "listen" address "unknown network")), w)
  else if decide (address ∈ unbindable w) then
    ((None, Some (OpError "listen" address "cannot bind")), w)
  else if bound w address then
    ((None, Some (OpError "listen" address "address already in use")), w)
  else
    ((Some (TCPListener (length (sockets w))), None),
     with_sockets (sockets w ++ [{| sock_addr := address; sock_open := true;
                                    backlog := [] |}]) w).

(** [tls.LoadX509KeyPair]: both files are read, then parsed and matched. *)
Definition os_LoadX509KeyPair (certFile keyFile : string) (w : World)
  : tls_Certificate * error :=
  match files w !! certFile with
  | None => (tls_Certificate_zero,
             Some (PathError "open" certFile "no such file or directory"))
  | Some c =>
    match files w !! keyFile with
    | None => (tls_Certificate_zero,
               Some (PathError "open" keyFile "no such file or directory"))
    | Some k =>
      match c, k with
      | CertPEM chain pub, KeyPEM priv =>
        if decide (pub = priv) then
          ({| Certificate := chain; PrivateKey := priv |}, None)
        else
          (tls_Certificate_zero,
           Some (TLSError "private key does not match public key"))
      | CertPEM _ _, _ =>
        (tls_Certificate_zero,
         Some (TLSError "failed to find any PEM data in key input"))
      | _, _ =>
        (tls_Certificate_zero,
         Some (TLSError "failed to find any PEM data in certificate input"))
      end
    end
  end.

(** The local end of a dial: the system chooses it ([inl None]), or it is
    pinned to an IP of the host; an IP text that does not parse gives the
    nil IP, which pins nothing. *)
Definition local_end (d : net_Dialer) (w : World) : option string + error_value :=
  match LocalAddr d with
  | None => inl None
  | Some {| IP := ParseIP s |} =>
    match ips w !! s with
    | None => inl None
    | Some true => inl (Some s)
    | Some false => inr (OpError "dial" s "cannot assign requested address")
    end
  end.

(** The method [Dial] of [net.Dialer]. *)
Definition os_Dial (d : net_Dialer) (network address : string) (w : World)
  : net_Conn * error :=
  if decide (network ≠ "tcp") then
    (None, Some (OpError "dial" address "unknown network"))
  else
    match local_end d w with
    | inr e => (None, Some e)
    | inl local =>
      match peers w !! address with
      | None => (None, Some (OpError "dial" address "connection refused"))
      | Some p =>
        if decide (Timeout d ≠ 0 ∧ Timeout d < latency p)%Z then
          (None, Some (OpError "dial" address "i/o timeout"))
        else (Some (TCPConn local address), None)
      end
    end.

(** [tls.DialWithDialer]: the dial, then the client handshake; the
    certificate of the peer is verified unless the configuration says to
    skip it. *)
Definition os_DialWithDialer (d : net_Dialer) (network address : string)
    (config : tls_Config) (w : World) : net_Conn * error :=
  match os_Dial d network address w with
  | (Some raw, None) =>
    match peers w !! address with
    | Some p =>
      if negb (speaks_tls p) then
        (None, Some (TLSError "first record does not look like a TLS handshake"))
      else if negb (InsecureSkipVerify config) && negb (cert_verifies p) then
        (None, Some (TLSError "failed to verify certificate"))
      else (Some (TLSClientConn raw config), None)
    | None => (None, Some (OpError "dial" address "connection refused"))
    end
  | (_, err) => (None, err)
  end.

Definition with_backlog (b : list string) (s : Socket) : Socket :=
  {| sock_addr := sock_addr s; sock_open := sock_open s; backlog := b |}.

Definition shut (s : Socket) : Socket :=
  {| sock_addr := sock_addr s; sock_open := false; backlog := backlog s |}.

Definition closed_connection : string := "use of closed network connection".

(** The method [Accept] of a listener.  On an open socket with nothing to
    accept the call does not return.  A TLS listener accepts on its inner
    listener and wraps the connection; the handshake comes later. *)
Fixpoint os_Accept (l : Listener) (w : World) : Outcome (net_Conn * error) * World :=
  match l with
  | TCPListener fd =>
    match sockets w !! fd with
    | None => (Returned (None, Some (OpError "accept" "" "bad file descriptor")), w)
    | Some s =>
      if sock_open s then
        match backlog s with
        | [] => (Blocked, w)
        | remote :: rest =>
          (Returned (Some (TCPConn None remote), None),
           with_sockets (<[fd := with_backlog rest s]> (sockets w)) w)
        end
      else
        (Returned (None, Some (OpError "accept" (sock_addr s) closed_connection)), w)
    end
  | TLSListener inner config =>
    match inner with
    | None => (Panicked nil_dereference, w)
    | Some l' =>
      match os_Accept l' w with
      | (Returned (Some c, None), w') =>
        (Returned (Some (TLSServerConn c config), None), w')
      | (Returned (_, err), w') => (Returned (None, err), w')
      | (Panicked msg, w') => (Panicked msg, w')
      | (Blocked, w') => (Blocked, w')
      end
    end
  end.

(** The method [Close] of a listener: the socket stops holding its
    address; closing it again is an error.  A TLS listener closes its inner
    listener. *)
Fixpoint os_Close (l : Listener) (w : World) : Outcome error * World :=
  match l with
  | TCPListener fd =>
    match sockets w !! fd with
    | None => (Returned (Some (OpError "close" "" "bad file descriptor")), w)
    | Some s =>
      if sock_open s then
        (Returned None, with_sockets (<[fd := shut s]> (sockets w)) w)
      else
        (Returned (Some (OpError "close" (sock_addr s) closed_connection)), w)
    end
  | TLSListener inner _ =>
    match inner with
    | None => (Panicked nil_dereference, w)
    | Some l' => os_Close l' w
    end
  end.

(** What the system answers to a call, and what the call leaves behind. *)
Definition os {X : Type} (c : Call X) (w : World) : Outcome X * World :=
  match c in Call X return Outcome X * World with
  | net_Listen network address =>
    let '(r, w') := os_Listen network address w in (Returned r, w')
  | tls_LoadX509KeyPair certFile keyFile =>
    (Returned (os_LoadX509KeyPair certFile keyFile w), w)
  | Dialer_Dial d network address => (Returned (os_Dial d network address w), w)
  | tls_DialWithDialer d network address config =>
    (Returned (os_DialWithDialer d network address config w), w)
  | Listener_Accept l => os_Accept l w
  | Listener_Close l => os_Close l w
  | log_Println args => (Returned tt, with_stdlog (stdlog w ++ [args]) w)
  end.

(** ** Running a program *)

Inductive Event : Type :=
| Called {X : Type} (c : Call X).

(** The heap of [Transport] objects, the operating system, and the calls
    made so far. *)
Record State : Type := {
  heap : list Transport;
  world : World;
  trace : list Event;
}.

Definition with_heap (h : list Transport) (s : State) : State :=
  {| heap := h; world := world s; trace := trace s |}.

Definition after_call {X : Type} (c : Call X) (w : World) (s : State) : State :=
  {| heap := heap s; world := w; trace := trace s ++ [Called c] |}.

(** Reading or writing through a pointer that refers to no object is the
    nil dereference. *)
Fixpoint run {A : Type} (m : Go A) (s : State) : Outcome A * State :=
  match m with
  | Ret a => (Returned a, s)
  | Panic msg => (Panicked msg, s)
  | New v k => run (k (length (heap s))) (with_heap (heap s ++ [v]) s)
  | Fetch p k =>
    match heap s !! p with
    | Some v => run (k v) s
    | None => (Panicked nil_dereference, s)
    end
  | Update p f k =>
    match heap s !! p with
    | Some v => run k (with_heap (<[p := f v]> (heap s)) s)
    | None => (Panicked nil_dereference, s)
    end
  | Sys c k =>
    let '(r, w) := os c (world s) in
    match r with
    | Returned x => run (k x) (after_call c w s)
    | Panicked msg => (Panicked msg, after_call c w s)
    | Blocked => (Blocked, after_call c w s)
    end
  end.

(** The calls made since the trace had length [n]. *)
Definition calls_since (n : nat) (s : State) : list Event :=
  drop n (trace s).

(** The dialers of the dials among some calls. *)
Definition dialers (evs : list Event) : list net_Dialer :=
  omap (λ ev, match ev with
              | Called (Dialer_Dial d _ _) => Some d
              | Called (tls_DialWithDialer d _ _ _) => Some d
              | Called _ => None
              end) evs.

(** A world with nothing in it, and the state of a program that starts
    there. *)
Definition empty_world : World :=
  {| files := ∅; sockets := []; unbindable := ∅; ips := ∅; peers := ∅;
     stdlog := [] |}.

Definition initial (w : World) : State :=
  {| heap := []; world := w; trace := [] |}.

(** ** Callers *)

(** The three ways to construct a transport. *)
Inductive Constructor : Type :=
| Plain
| WithTLS (certFile keyPath : string) (skipVerify : bool)
| FromListener (ln : net_Listener) (remoteEncrypted skipVerify : bool) (addr : string).

Definition construct (c : Constructor) : Go ptr :=
  match c with
  | Plain => NewTransport
  | WithTLS certFile keyPath skipVerify => NewTLSTransport certFile keyPath skipVerify
  | FromListener ln remoteEncrypted skipVerify addr =>
    NewTransportFromListener ln remoteEncrypted skipVerify addr
  end.

Definition adopting (c : Constructor) : bool :=
  match c with
  | FromListener _ _ _ _ => true
  | _ => false
  end.

(** A method call on a transport. *)
Inductive Op : Type :=
| OpOpen (addr : string)
| OpDial (addr : string) (timeout : Duration)
| OpAccept
| OpClose
| OpAddr.

Definition perform (t : ptr) (o : Op) : Go unit :=
  match o with
  | OpOpen addr => Open t addr ;;; Ret tt
  | OpDial addr timeout => Dial t addr timeout ;;; Ret tt
  | OpAccept => Accept t ;;; Ret tt
  | OpClose => Close t ;;; Ret tt
  | OpAddr => Transport_Addr t ;;; Ret tt
  end.

(** A caller that makes the calls one after the other; a call that panics
    or never returns ends it. *)
Fixpoint perform_all (t : ptr) (ops : list Op) : Go unit :=
  match ops with
  | [] => Ret tt
  | o :: ops' => perform t o ;;; perform_all t ops'
  end.

(** ** Properties of programs *)

(** Every update the program makes to an object is within [R]. *)
Inductive Keeps (R : relation Transport) {A : Type} : Go A → Prop :=
| Keeps_Ret a : Keeps R (Ret a)
| Keeps_Panic msg : Keeps R (Panic msg)
| Keeps_New v k : (∀ p, Keeps R (k p)) → Keeps R (New v k)
| Keeps_Fetch p k : (∀ v, Keeps R (k v)) → Keeps R (Fetch p k)
| Keeps_Update p f k : (∀ v, R v (f v)) → Keeps R k → Keeps R (Update p f k)
| Keeps_Sys {X : Type} (c : Call X) k : (∀ x, Keeps R (k x)) → Keeps R (Sys c k).

(** Every call the program makes satisfies [P]. *)
Inductive Calls (P : Event → Prop) {A : Type} : Go A → Prop :=
| Calls_Ret a : Calls P (Ret a)
| Calls_Panic msg : Calls P (Panic msg)
| Calls_New v k : (∀ p, Calls P (k p)) → Calls P (New v k)
| Calls_Fetch p k : (∀ v, Calls P (k v)) → Calls P (Fetch p k)
| Calls_Update p f k : Calls P k → Calls P (Update p f k)
| Calls_Sys {X : Type} (c : Call X) k :
    P (Called c) → (∀ x, Calls P (k x)) → Calls P (Sys c k).

(** Two values of a transport that differ at most in the listener. *)
Definition same_config (v v' : Transport) : Prop :=
  advAddr v' = advAddr v ∧ certFile v' = certFile v ∧ certKey v' = certKey v ∧
  remoteEncrypted v' = remoteEncrypted v ∧ skipVerify v' = skipVerify v ∧
  srcIP v' = srcIP v.

(** A call that is not a dial. *)
Definition no_dial (ev : Event) : Prop := dialers [ev] = [].

(** A call that, if it is a dial, leaves the local end to the system. *)
Definition unpinned (ev : Event) : Prop :=
  Forall (λ d, LocalAddr d = None) (dialers [ev]).

(** The dialer [Dial] builds for a transport. *)
Definition dialer_of (v : Transport) (timeout : Duration) : net_Dialer :=
  {| Timeout := timeout;
     LocalAddr := if decide (srcIP v ≠ "")
                  then Some {| IP := ParseIP (srcIP v); Port := 0 |}
                  else None |}.

(** The client configuration [Dial] builds for a transport. *)
Definition client_config (v : Transport) : tls_Config :=
  {| Certificates := []; InsecureSkipVerify := skipVerify v;
     ClientAuth := NoClientCert |}.

(** The server configuration [createTLSConfig] builds around a
    certificate. *)
Definition server_config (cert : tls_Certificate) : tls_Config :=
  {| Certificates := [cert]; InsecureSkipVerify := false;
     ClientAuth := NoClientCert |}.

(** The socket under a listener is open. *)
Fixpoint listening (w : World) (l : Listener) : bool :=
  match l with
  | TCPListener fd =>
    match sockets w !! fd with
    | Some s => sock_open s
    | None => false
    end
  | TLSListener inner _ =>
    match inner with
    | Some l' => listening w l'
    | None => false
    end
  end.

(** Sequencing of outcomes. *)
Definition and_then {A B : Type} (r : Outcome A * State)
    (h : A → State → Outcome B * State) : Outcome B * State :=
  match r with
  | (Returned a, s) => h a s
  | (Panicked msg, s) => (Panicked msg, s)
  | (Blocked, s) => (Blocked, s)
  end.

(** A constructor only allocates: it returns a pointer to a new object
    with value [v], makes no call, and leaves the system and the other
    objects as they were. *)
Definition allocates (m : Go ptr) (v : Transport) : Prop :=
  ∀ s : State, ∃ (t : ptr) (s' : State),
    run m s = (Returned t, s') ∧
    world s' = world s ∧ trace s' = trace s ∧
    heap s !! t = None ∧ heap s' !! t = Some v ∧
    ∀ (p : ptr) (u : Transport), heap s !! p = Some u → heap s' !! p = Some u.

(** ** Example systems *)

(** A host with a matching certificate and key on disk, and one remote
    node that speaks TLS with a self-signed certificate. *)
Definition mesh_world : World :=
  {| files := <["/etc/mesh/cert.pem" := CertPEM ["node-1"] "key-1"]>
                (<["/etc/mesh/key.pem" := KeyPEM "key-1"]> ∅);
     sockets := []; unbindable := ∅; ips := ∅;
     peers := <["10.0.0.2:4002" := {| speaks_tls := true; cert_verifies := false;
                                      latency := 1000 |}]> ∅;
     stdlog := [] |}.

Definition tls_node : Transport :=
  {| ln := None; advAddr := {| Hostname := "" |};
     certFile := "/etc/mesh/cert.pem"; certKey := "/etc/mesh/key.pem";
     remoteEncrypted := true; skipVerify := true; srcIP := "" |}.

(** A state with one transport, as [NewTLSTransport] leaves it. *)
Definition mesh_state : State :=
  {| heap := [tls_node]; world := mesh_world; trace := [] |}.

(** The same after a successful [Open]. *)
Definition mesh_state_open : State :=
  snd (run (Open 0 "127.0.0.1:4002") mesh_state).

(** A certificate path that names no file, on a host where the bind
    address is free. *)
Definition missing_certificate : Go error :=
  let* t := NewTLSTransport "/no/such/cert.pem" "/no/such/key.pem" false in
  Open t "127.0.0.1:4002".

(** A transport on which no listener was opened or adopted. *)
Definition accept_unopened : Go (net_Conn * error) :=
  let* t := NewTransport in
  Accept t.

(** ** Footprints *)

(** The program allocates nothing and every update it makes is through a
    pointer in [W]. *)
Inductive Writes (W : ptr → Prop) {A : Type} : Go A → Prop :=
| Writes_Ret a : Writes W (Ret a)
| Writes_Panic msg : Writes W (Panic msg)
| Writes_Fetch p k : (∀ v, Writes W (k v)) → Writes W (Fetch p k)
| Writes_Update p f k : W p → Writes W k → Writes W (Update p f k)
| Writes_Sys {X : Type} (c : Call X) k : (∀ x, Writes W (k x)) → Writes W (Sys c k).

(** No pointer: the footprint of a method that only reads. *)
Definition nowhere : ptr → Prop := λ _, False.

(** The socket under a listener, if the chain of wrappers ends in one. *)
Fixpoint socket_of (l : Listener) : option nat :=
  match l with
  | TCPListener fd => Some fd
  | TLSListener inner _ =>
    match inner with
    | Some l' => socket_of l'
    | None => None
    end
  end.

(** The listener of a transport, if it has one, ends in a socket the
    system knows. *)
Definition grounded (w : World) (v : Transport) : Prop :=
  ∀ l, ln v = Some l → ∃ fd, socket_of l = Some fd ∧ fd < length (sockets w).

(** The line [Accept] logs for an error. *)
Definition accept_log (err : error) : list (list string) :=
  match err with
  | Some e => [["error accepting: "; Error e]]
  | None => []
  end.

(** The state [mesh_state_open] with one connection waiting on the
    listening socket. *)
Definition mesh_state_pending : State :=
  {| heap := heap mesh_state_open;
     world := with_sockets [{| sock_addr := "127.0.0.1:4002"; sock_open := true;
                               backlog := ["10.0.0.2:53211"] |}] mesh_world;
     trace := [] |}.

(** The same after [Close]. *)
Definition mesh_state_closed : State :=
  snd (run (Close 0) mesh_state_open).

(** A transport with a source IP, which only code inside the package can
    build, on a host that has this IP. *)
Definition pinned_node : Transport :=
  {| ln := None; advAddr := {| Hostname := "" |}; certFile := ""; certKey := "";
     remoteEncrypted := false; skipVerify := false; srcIP := "10.0.0.1" |}.

Definition pinned_state : State :=
  {| heap := [pinned_node];
     world := {| files := ∅; sockets := []; unbindable := ∅;
                 ips := <["10.0.0.1" := true]> ∅;
                 peers := peers mesh_world; stdlog := [] |};
     trace := [] |}.

(** ** Running programs: general facts *)

Lemma run_bind {A B : Type} (m : Go A) (h : A → Go B) (s : State) :
  run (bind m h) s = and_then (run m s) (λ a, run (h a)).
Proof.
  revert s. induction m as [a|msg|v k IH|p k IH|p f k IH|X c k IH]; intros s; simpl.
  - reflexivity.
  - reflexivity.
  - apply IH.
  - destruct (heap s !! p); [apply IH | reflexivity].
  - destruct (heap s !! p); [apply IH | reflexivity].
  - destruct (os c (world s)) as [[x|msg|] w]; [apply IH | reflexivity | reflexivity].
Qed.

Lemma run_field {X : Type} (t : ptr) (f : Transport → X) (s : State) (v : Transport) :
  heap s !! t = Some v → run (field t f) s = (Returned (f v), s).
Proof. intros H. unfold field. simpl. rewrite H. reflexivity. Qed.

#[global] Instance same_config_preorder : PreOrder same_config.
Proof.
  split.
  - intros v. unfold same_config. tauto.
  - intros a b c (?&?&?&?&?&?) (?&?&?&?&?&?). unfold same_config.
    repeat split; congruence.
Qed.

Lemma set_ln_same_config (l : net_Listener) (v : Transport) :
  same_config v (set_ln l v).
Proof. unfold same_config. simpl. tauto. Qed.

Section Updates.
Context (R : relation Transport) `{!PreOrder R}.

Lemma keeps_bind {A B : Type} (m : Go A) (h : A → Go B) :
  Keeps R m → (∀ a, Keeps R (h a)) → Keeps R (bind m h).
Proof.
  intros Hm Hh. induction Hm; simpl; try (constructor; auto); auto.
Qed.

(** Running a program whose updates are within a preorder leaves every
    object related to what it was. *)
Lemma keeps_run {A : Type} (m : Go A) :
  Keeps R m →
  ∀ (s : State) (p : ptr) (v : Transport),
    heap s !! p = Some v →
    ∃ v', heap (snd (run m s)) !! p = Some v' ∧ R v v'.
Proof.
  induction 1 as [a|msg|v0 k Hk IH|q k Hk IH|q f k Hf Hk IH|X c k Hk IH];
    intros s p v Hp; simpl.
  - exists v. split; [assumption | reflexivity].
  - exists v. split; [assumption | reflexivity].
  - apply IH. simpl. rewrite lookup_app_l; [assumption|].
    eapply lookup_lt_Some; eassumption.
  - destruct (heap s !! q) as [u|]; [apply IH; assumption|].
    exists v. split; [assumption | reflexivity].
  - destruct (heap s !! q) as [u|] eqn:Hq.
    + destruct (decide (p = q)) as [->|Hne].
      * destruct (IH (with_heap (<[q := f u]> (heap s)) s) q (f u))
          as (v' & Hv' & HR).
        { simpl. apply list_lookup_insert_eq. eapply lookup_lt_Some; eassumption. }
        exists v'. split; [assumption|].
        assert (u = v) as -> by congruence.
        etransitivity; [apply Hf | exact HR].
      * apply IH. simpl. rewrite list_lookup_insert_ne; [assumption | congruence].
    + exists v. split; [assumption | reflexivity].
  - destruct (os c (world s)) as [[x|msg|] w]; simpl.
    + apply IH. assumption.
    + exists v. split; [assumption | reflexivity].
    + exists v. split; [assumption | reflexivity].
Qed.
End Updates.

Section Traces.
Context (P : Event → Prop).

Lemma calls_bind {A B : Type} (m : Go A) (h : A → Go B) :
  Calls P m → (∀ a, Calls P (h a)) → Calls P (bind m h).
Proof.
  intros Hm Hh. induction Hm; simpl; try (constructor; auto); auto.
Qed.

(** Running a program appends to the trace the calls it makes. *)
Lemma calls_run {A : Type} (m : Go A) :
  Calls P m →
  ∀ s : State, ∃ evs : list Event,
    trace (snd (run m s)) = trace s ++ evs ∧ Forall P evs.
Proof.
  induction 1 as [a|msg|v0 k Hk IH|q k Hk IH|q f k Hk IH|X c k Hc Hk IH];
    intros s; simpl.
  - exists []. rewrite app_nil_r. auto.
  - exists []. rewrite app_nil_r. auto.
  - apply (IH _ (with_heap _ s)).
  - destruct (heap s !! q); [apply IH|]. exists []. rewrite app_nil_r. auto.
  - destruct (heap s !! q); [apply (IH (with_heap _ s))|].
    exists []. rewrite app_nil_r. auto.
  - destruct (os c (world s)) as [[x|msg|] w]; simpl.
    + destruct (IH x (after_call c w s)) as (evs & Ht & Hall).
      exists (Called c :: evs). split; [|constructor; assumption].
      rewrite Ht. simpl. rewrite <- app_assoc. reflexivity.
    + exists [Called c]. split; [reflexivity | constructor; auto].
    + exists [Called c]. split; [reflexivity | constructor; auto].
Qed.
End Traces.

(** ** The methods: what they update and what they call *)

Ltac program :=
  unfold Open, Dial, Accept, Close, Transport_Addr, createTLSConfig, invoke,
    field, call, assign_ln;
  repeat (simpl;
    match goal with
    | |- ∀ _, _ => intros
    | |- Keeps _ (match ?x with _ => _ end) => destruct x
    | |- Calls _ (match ?x with _ => _ end) => destruct x
    | |- Keeps _ (bind (match ?x with _ => _ end) _) => destruct x
    | |- Calls _ (bind (match ?x with _ => _ end) _) => destruct x
    | |- Keeps _ _ => constructor
    | |- Calls _ _ => constructor
    | |- same_config _ (set_ln _ _) => apply set_ln_same_config
    | |- no_dial _ => reflexivity
    end).

Lemma Open_keeps (t : ptr) (addr : string) : Keeps same_config (Open t addr).
Proof. program. Qed.

Lemma Dial_keeps (t : ptr) (addr : string) (timeout : Duration) :
  Keeps same_config (Dial t addr timeout).
Proof. program. Qed.

Lemma Accept_keeps (t : ptr) : Keeps same_config (Accept t).
Proof. program. Qed.

Lemma Close_keeps (t : ptr) : Keeps same_config (Close t).
Proof. program. Qed.

Lemma Addr_keeps (t : ptr) : Keeps same_config (Transport_Addr t).
Proof. program. Qed.

Lemma perform_keeps (t : ptr) (o : Op) : Keeps same_config (perform t o).
Proof.
  destruct o; unfold perform; (apply keeps_bind; [|intros; constructor]).
  - apply Open_keeps.
  - apply Dial_keeps.
  - apply Accept_keeps.
  - apply Close_keeps.
  - apply Addr_keeps.
Qed.

Lemma perform_all_keeps (t : ptr) (ops : list Op) :
  Keeps same_config (perform_all t ops).
Proof.
  induction ops as [|o ops IH]; cbn [perform_all].
  - constructor.
  - apply keeps_bind; [apply perform_keeps | intros; exact IH].
Qed.

Lemma Open_calls (t : ptr) (addr : string) : Calls no_dial (Open t addr).
Proof. program. Qed.

Lemma Accept_calls (t : ptr) : Calls no_dial (Accept t).
Proof. program. Qed.

Lemma Close_calls (t : ptr) : Calls no_dial (Close t).
Proof. program. Qed.

Lemma Addr_calls (t : ptr) : Calls no_dial (Transport_Addr t).
Proof. program. Qed.

(** ** The methods: what a run does *)

Lemma Dial_run (t : ptr) (addr : string) (timeout : Duration) (s : State) (v : Transport) :
  heap s !! t = Some v →
  run (Dial t addr timeout) s =
    if remoteEncrypted v then
      let c1 := log_Println ["doing a TLS dial"] in
      let c2 := tls_DialWithDialer (dialer_of v timeout) "tcp" addr (client_config v) in
      let w1 := with_stdlog (stdlog (world s) ++ [["doing a TLS dial"]]) (world s) in
      (Returned (os_DialWithDialer (dialer_of v timeout) "tcp" addr (client_config v) w1),
       after_call c2 w1 (after_call c1 w1 s))
    else
      let c := Dialer_Dial (dialer_of v timeout) "tcp" addr in
      (Returned (os_Dial (dialer_of v timeout) "tcp" addr (world s)),
       after_call c (world s) s).
Proof.
  intros H. unfold Dial, field, call, dialer_of, client_config. simpl. rewrite H.
  destruct (decide (srcIP v ≠ "")) as [Hsrc|Hsrc]; simpl; rewrite ?H; simpl;
    rewrite ?H; destruct (remoteEncrypted v); simpl; rewrite ?H; simpl.
  - destruct (os_DialWithDialer _ _ _ _ _) as [conn err]. reflexivity.
  - destruct (os_Dial _ _ _ _) as [conn err]. reflexivity.
  - destruct (os_DialWithDialer _ _ _ _ _) as [conn err]. reflexivity.
  - destruct (os_Dial _ _ _ _) as [conn err]. reflexivity.
Qed.

Lemma Dial_calls (t : ptr) (addr : string) (timeout : Duration) (s : State) (v : Transport) :
  heap s !! t = Some v →
  calls_since (length (trace s)) (snd (run (Dial t addr timeout) s)) =
    if remoteEncrypted v then
      [Called (log_Println ["doing a TLS dial"]);
       Called (tls_DialWithDialer (dialer_of v timeout) "tcp" addr (client_config v))]
    else [Called (Dialer_Dial (dialer_of v timeout) "tcp" addr)].
Proof.
  intros H. rewrite (Dial_run _ _ _ _ _ H). unfold calls_since.
  destruct (remoteEncrypted v); simpl.
  - rewrite <- app_assoc, drop_app_length. reflexivity.
  - rewrite drop_app_length. reflexivity.
Qed.


Lemma Open_run (t : ptr) (addr : string) (s : State) (v : Transport) :
  heap s !! t = Some v →
  run (Open t addr) s =
    let c1 := net_Listen "tcp" addr in
    match os_Listen "tcp" addr (world s) with
    | ((_, Some e), w) => (Returned (Some e), after_call c1 w s)
    | ((l, None), w) =>
      if decide (certFile v ≠ "") then
        let c2 := tls_LoadX509KeyPair (certFile v) (certKey v) in
        match os_LoadX509KeyPair (certFile v) (certKey v) w with
        | (_, Some e) => (Returned (Some e), after_call c2 w (after_call c1 w s))
        | (cert, None) =>
          (Returned None,
           with_heap (<[t := set_ln (Some (TLSListener l (Some (server_config cert)))) v]>
                        (heap s))
                     (after_call c2 w (after_call c1 w s)))
        end
      else
        (Returned None, with_heap (<[t := set_ln l v]> (heap s)) (after_call c1 w s))
    end.
Proof.
  intros H. unfold Open, createTLSConfig, field, call, assign_ln. simpl.
  destruct (os_Listen "tcp" addr (world s)) as [[l [e|]] w]; simpl; [reflexivity|].
  rewrite H. destruct (decide (certFile v ≠ "")) as [Hc|Hc]; simpl; rewrite ?H; simpl.
  - destruct (os_LoadX509KeyPair (certFile v) (certKey v) w) as [cert [e|]];
      simpl; rewrite ?H; reflexivity.
  - reflexivity.
Qed.

Lemma Close_run (t : ptr) (s : State) (v : Transport) :
  heap s !! t = Some v →
  run (Close t) s =
    match ln v with
    | None => (Returned None, s)
    | Some l => run (call (Listener_Close l)) s
    end.
Proof.
  intros H. unfold Close, field, invoke. simpl. rewrite H.
  destruct (ln v) as [l|] eqn:E; simpl; rewrite ?H; simpl; rewrite ?E; reflexivity.
Qed.

Lemma Accept_run (t : ptr) (s : State) (v : Transport) :
  heap s !! t = Some v →
  run (Accept t) s =
    match ln v with
    | None => (Panicked nil_dereference, s)
    | Some l =>
      and_then (run (call (Listener_Accept l)) s)
        (λ r s1,
          match snd r with
          | Some e =>
            let c := log_Println ["error accepting: "; Error e] in
            (Returned r, after_call c (with_stdlog (stdlog (world s1) ++
                                         [["error accepting: "; Error e]]) (world s1)) s1)
          | None => (Returned r, s1)
          end)
    end.
Proof.
  intros H. unfold Accept, field, invoke, call. simpl. rewrite H.
  destruct (ln v) as [l|]; simpl; [|reflexivity].
  destruct (os_Accept l (world s)) as [[[c [e|]]|msg|] w]; reflexivity.
Qed.

Lemma Addr_run (t : ptr) (s : State) (v : Transport) :
  heap s !! t = Some v → run (Transport_Addr t) s = (Returned (advAddr v), s).
Proof. apply run_field. Qed.

(** ** The operating system: binding and closing *)



Lemma os_Close_listening : ∀ (l : Listener) (w : World),
  listening (snd (os_Close l w)) l = false.
Proof.
  fix IH 1. intros [fd|[l'|] config] w; simpl.
  - destruct (sockets w !! fd) as [sk|] eqn:E; simpl; [|rewrite E; reflexivity].
    destruct (sock_open sk) eqn:Eo; simpl.
    + rewrite list_lookup_insert_eq; [reflexivity|].
      eapply lookup_lt_Some; eassumption.
    + rewrite E. assumption.
  - apply IH.
  - reflexivity.
Qed.

(** ** Sessions: a constructor, then method calls *)

Lemma construct_run (c : Constructor) (s : State) :
  ∃ v, run (construct c) s = (Returned (length (heap s)), with_heap (heap s ++ [v]) s) ∧
       srcIP v = "" ∧
       (adopting c = false →
        ln v = None ∧ advAddr v = {| Hostname := "" |} ∧
        (certFile v ≠ "" → remoteEncrypted v = true)).
Proof.
  destruct c; simpl; eexists; (split; [reflexivity|]); simpl;
    (split; [reflexivity|]); intros Had; try discriminate; auto.
Qed.

Lemma lookup_allocated (h : list Transport) (v : Transport) :
  (h ++ [v]) !! length h = Some v.
Proof. apply list_lookup_middle. reflexivity. Qed.

Lemma perform_all_config (t : ptr) (ops : list Op) (s : State) (v : Transport) :
  heap s !! t = Some v →
  ∃ v', heap (snd (run (perform_all t ops) s)) !! t = Some v' ∧ same_config v v'.
Proof. apply keeps_run; [apply _ | apply perform_all_keeps]. Qed.

Lemma dialers_cons (ev : Event) (evs : list Event) :
  dialers (ev :: evs) = dialers [ev] ++ dialers evs.
Proof.
  unfold dialers. simpl.
  destruct ev as [X c]; destruct c; reflexivity.
Qed.

Lemma unpinned_dialers (evs : list Event) :
  Forall unpinned evs → Forall (λ d, LocalAddr d = None) (dialers evs).
Proof.
  induction 1 as [|ev evs Hev _ IH]; [constructor|].
  rewrite dialers_cons. apply Forall_app. split; assumption.
Qed.

Lemma no_dial_unpinned (ev : Event) : no_dial ev → unpinned ev.
Proof. unfold no_dial, unpinned. intros ->. constructor. Qed.

Lemma dialer_of_unpinned (v : Transport) (timeout : Duration) :
  srcIP v = "" → LocalAddr (dialer_of v timeout) = None.
Proof.
  intros H. unfold dialer_of. simpl.
  destruct (decide (srcIP v ≠ "")); [contradiction | reflexivity].
Qed.

Lemma perform_unpinned (t : ptr) (o : Op) (s : State) (v : Transport) :
  heap s !! t = Some v → srcIP v = "" →
  ∃ evs : list Event,
    trace (snd (run (perform t o) s)) = (trace s ++ evs)%list ∧ Forall unpinned evs.
Proof.
  intros H Hsrc.
  assert (Hother : ∀ m : Go unit, Calls no_dial m →
    ∃ evs : list Event,
      trace (snd (run m s)) = (trace s ++ evs)%list ∧ Forall unpinned evs).
  { intros m Hm. destruct (calls_run no_dial m Hm s) as (evs & Ht & Hall).
    exists evs. split; [assumption|].
    eapply Forall_impl; [exact Hall | apply no_dial_unpinned]. }
  destruct o as [addr|addr timeout| | |]; unfold perform.
  - apply Hother, calls_bind; [apply Open_calls | intros; constructor].
  - rewrite run_bind, (Dial_run _ _ _ _ _ H).
    pose proof (dialer_of_unpinned v timeout Hsrc) as Hd.
    destruct (remoteEncrypted v); simpl.
    + eexists [_; _]. split.
      * rewrite <- app_assoc. reflexivity.
      * repeat constructor. exact Hd.
    + eexists [_]. split; [reflexivity|]. repeat constructor. exact Hd.
  - apply Hother, calls_bind; [apply Accept_calls | intros; constructor].
  - apply Hother, calls_bind; [apply Close_calls | intros; constructor].
  - apply Hother, calls_bind; [apply Addr_calls | intros; constructor].
Qed.

Lemma perform_all_unpinned (t : ptr) (ops : list Op) :
  ∀ (s : State) (v : Transport),
    heap s !! t = Some v → srcIP v = "" →
    ∃ evs : list Event,
      trace (snd (run (perform_all t ops) s)) = (trace s ++ evs)%list ∧
      Forall unpinned evs.
Proof.
  induction ops as [|o ops IH]; intros s v H Hsrc; cbn [perform_all].
  - exists []. simpl. rewrite app_nil_r. auto.
  - rewrite run_bind.
    destruct (perform_unpinned t o s v H Hsrc) as (evs1 & Ht1 & Hall1).
    destruct (keeps_run same_config (perform t o) (perform_keeps t o) s t v H)
      as (v1 & Hv1 & Hcfg).
    destruct (run (perform t o) s) as [[[]|msg|] s1]; simpl in *.
    + destruct (IH s1 v1 Hv1) as (evs2 & Ht2 & Hall2).
      { destruct Hcfg as (_&_&_&_&_&->). exact Hsrc. }
      exists (evs1 ++ evs2). split.
      * rewrite Ht2, Ht1, app_assoc. reflexivity.
      * apply Forall_app. split; assumption.
    + exists evs1. auto.
    + exists evs1. auto.
Qed.

(** ** The constructors *)

(** C7: each of the three constructors performs no I/O and cannot fail: in
    every state it returns a pointer to a new transport whose fields are
    exactly the supplied configuration, makes no call and leaves the
    operating system as it was. *)
Theorem constructors_only_allocate :
  allocates NewTransport
    {| ln := None; advAddr := {| Hostname := "" |}; certFile := ""; certKey := "";
       remoteEncrypted := false; skipVerify := false; srcIP := "" |} ∧
  (∀ (certFile keyPath : string) (skipVerify : bool),
     allocates (NewTLSTransport certFile keyPath skipVerify)
       {| ln := None; advAddr := {| Hostname := "" |};
          certFile := certFile; certKey := keyPath;
          remoteEncrypted := true; skipVerify := skipVerify; srcIP := "" |}) ∧
  (∀ (ln : net_Listener) (remoteEncrypted skipVerify : bool) (addr : string),
     allocates (NewTransportFromListener ln remoteEncrypted skipVerify addr)
       {| ln := ln; advAddr := {| Hostname := addr |}; certFile := ""; certKey := "";
          remoteEncrypted := remoteEncrypted; skipVerify := skipVerify;
          srcIP := "" |}).
Proof.
  assert (Hnew : ∀ v, allocates (New v Ret) v).
  { intros v s. exists (length (heap s)), (with_heap (heap s ++ [v]) s). simpl.
    repeat split.
    - apply lookup_ge_None. lia.
    - apply lookup_allocated.
    - intros p u Hp. rewrite lookup_app_l; [assumption|].
      eapply lookup_lt_Some; eassumption. }
  repeat split; intros; apply Hnew.
Qed.

(** ** Addr *)

(** C8: [Addr()] returns exactly the advertised address of the transport,
    with no call and no change of state; the address reports "tcp" as its
    network and renders as its hostname.  In a session, it is the address
    recorded at construction: the one given to the adopting constructor. *)
Theorem Addr_returns_advertised_address :
  (∀ (t : ptr) (s : State) (v : Transport),
     heap s !! t = Some v →
     run (Transport_Addr t) s = (Returned (advAddr v), s) ∧
     net_Addr_Network (advAddr v) = "tcp" ∧
     net_Addr_String (advAddr v) = Hostname (advAddr v)) ∧
  (∀ (c : Constructor) (ops : list Op) (s : State),
     let t := length (heap s) in
     let s1 := snd (run (construct c) s) in
     let s2 := snd (run (perform_all t ops) s1) in
     ∃ v0, heap s1 !! t = Some v0 ∧
           run (Transport_Addr t) s2 = (Returned (advAddr v0), s2) ∧
           ∀ ln remoteEncrypted skipVerify addr,
             c = FromListener ln remoteEncrypted skipVerify addr →
             net_Addr_String (advAddr v0) = addr).
Proof.
  split.
  - intros t s v H. split; [apply Addr_run; assumption|]. split; reflexivity.
  - intros c ops s t s1 s2. subst t s1 s2.
    destruct (construct_run c s) as (v0 & Hrun & _). rewrite Hrun. cbn [snd].
    exists v0. split; [apply lookup_allocated|].
    destruct (perform_all_config (length (heap s)) ops
                (with_heap (heap s ++ [v0]) s) v0 (lookup_allocated _ _))
      as (v' & Hv' & Hadv & _).
    split.
    + rewrite (Addr_run _ _ _ Hv'), Hadv. reflexivity.
    + intros l re sv addr ->. simpl in Hrun. injection Hrun as Hv.
      apply app_inj_tail in Hv as [_ <-]. reflexivity.
Qed.

Lemma Addr_returns_advertised_address_witness :
  run (Transport_Addr 0) mesh_state_open = (Returned {| Hostname := "" |}, mesh_state_open).
Proof.
  exact (proj1 (proj1 Addr_returns_advertised_address 0 mesh_state_open
                  (set_ln (Some (TLSListener (Some (TCPListener 0))
                                   (Some (server_config
                                            {| Certificate := ["node-1"];
                                               PrivateKey := "key-1" |}))))
                          tls_node)
                  eq_refl)).
Defined.

(** ** Dial *)



(** ** Open *)

Lemma os_LoadX509KeyPair_sockets (certFile keyFile : string) (ss : list Socket) (w : World) :
  os_LoadX509KeyPair certFile keyFile (with_sockets ss w) =
  os_LoadX509KeyPair certFile keyFile w.
Proof. reflexivity. Qed.




(** C1 (the code does otherwise): [Open] with a certificate path that names
    no file returns the error of the loader and leaves the listener field
    [nil], but the socket it bound first is never closed: the address stays
    bound after the failed call. *)
Theorem Open_missing_certificate_leaves_socket_bound :
  let r := run missing_certificate (initial empty_world) in
  fst r = Returned (Some (PathError "open" "/no/such/cert.pem"
                            "no such file or directory")) ∧
  ln <$> heap (snd r) !! 0%nat = Some None ∧
  bound (world (initial empty_world)) "127.0.0.1:4002" = false ∧
  bound (world (snd r)) "127.0.0.1:4002" = true.
Proof. repeat split. Qed.

(** ** Accept *)

Lemma Accept_without_listener (t : ptr) (s : State) (v : Transport) :
  heap s !! t = Some v → ln v = None →
  run (Accept t) s = (Panicked nil_dereference, s).
Proof. intros H Hln. rewrite (Accept_run _ _ _ H), Hln. reflexivity. Qed.

(** C2 (the code does otherwise): on a transport without a listener,
    [Accept] calls a method on the nil listener: in every state the call
    panics with the nil dereference and returns neither a connection nor
    an error. *)
Theorem Accept_unopened_panics (s : State) :
  run accept_unopened s =
    (Panicked nil_dereference, with_heap (heap s ++ [Transport_zero]) s).
Proof.
  unfold accept_unopened, NewTransport. simpl.
  rewrite lookup_allocated. reflexivity.
Qed.

(** ** Close *)

(** C5: on a transport without a listener, [Close] returns no error and
    leaves the state as it is; on a transport with a listener, it is the
    call of [Close] on that listener, after which the socket under the
    listener is not open. *)
Theorem Close_closes_owned_listener (t : ptr) (s : State) (v : Transport) :
  heap s !! t = Some v →
  (ln v = None → run (Close t) s = (Returned None, s)) ∧
  (∀ l, ln v = Some l →
     run (Close t) s = run (call (Listener_Close l)) s ∧
     calls_since (length (trace s)) (snd (run (Close t) s)) = [Called (Listener_Close l)] ∧
     heap (snd (run (Close t) s)) = heap s ∧
     listening (world (snd (run (Close t) s))) l = false).
Proof.
  intros H. rewrite (Close_run _ _ _ H). split.
  - intros ->. reflexivity.
  - intros l ->. split; [reflexivity|].
    unfold call, calls_since. simpl.
    pose proof (os_Close_listening l (world s)) as Hl.
    destruct (os_Close l (world s)) as [[e|msg|] w]; simpl in *;
      rewrite drop_app_length; auto.
Qed.

Lemma Close_closes_owned_listener_witness :
  fst (run (Close 0) mesh_state) = Returned None ∧
  fst (run (Close 0) mesh_state_open) = Returned None ∧
  bound (world mesh_state_open) "127.0.0.1:4002" = true ∧
  bound (world (snd (run (Close 0) mesh_state_open))) "127.0.0.1:4002" = false ∧
  listening (world (snd (run (Close 0) mesh_state_open)))
    (TLSListener (Some (TCPListener 0))
       (Some (server_config {| Certificate := ["node-1"]; PrivateKey := "key-1" |})))
  = false.
Proof.
  split.
  { rewrite (proj1 (Close_closes_owned_listener 0 mesh_state tls_node eq_refl) eq_refl).
    reflexivity. }
  split; [reflexivity|]. split; [reflexivity|]. split; [reflexivity|].
  exact (proj2 (proj2 (proj2
      (proj2 (Close_closes_owned_listener 0 mesh_state_open
                (set_ln (Some (TLSListener (Some (TCPListener 0))
                                 (Some (server_config
                                          {| Certificate := ["node-1"];
                                             PrivateKey := "key-1" |}))))
                        tls_node)
                eq_refl) _ eq_refl)))).
Defined.

(** ** Invariants of a transport *)

(** C6: no sequence of calls of [Open], [Dial], [Accept], [Close] and
    [Addr] changes the advertised address of any transport; and a
    transport built by the plain or the TLS constructor keeps the zero
    address, which [Addr()] returns whatever was called before, a
    successful [Open] included. *)
Theorem advertised_address_is_immutable :
  (∀ (t : ptr) (ops : list Op) (s : State) (p : ptr) (v : Transport),
     heap s !! p = Some v →
     ∃ v', heap (snd (run (perform_all t ops) s)) !! p = Some v' ∧
           advAddr v' = advAddr v) ∧
  (∀ (c : Constructor) (ops : list Op) (s : State),
     adopting c = false →
     let t := length (heap s) in
     let s2 := snd (run (perform_all t ops) (snd (run (construct c) s))) in
     run (Transport_Addr t) s2 = (Returned {| Hostname := "" |}, s2)).
Proof.
  split.
  - intros t ops s p v H.
    destruct (keeps_run same_config _ (perform_all_keeps t ops) s p v H)
      as (v' & Hv' & Hadv & _).
    exists v'. auto.
  - intros c ops s Hc t s2. subst t s2.
    destruct (construct_run c s) as (v0 & Hrun & _ & Hplain). rewrite Hrun. cbn [snd].
    destruct (Hplain Hc) as (_ & Hzero & _).
    destruct (perform_all_config (length (heap s)) ops
                (with_heap (heap s ++ [v0]) s) v0 (lookup_allocated _ _))
      as (v' & Hv' & Hadv & _).
    rewrite (Addr_run _ _ _ Hv'), Hadv, Hzero. reflexivity.
Qed.

Lemma advertised_address_is_immutable_witness :
  let c := WithTLS "/etc/mesh/cert.pem" "/etc/mesh/key.pem" true in
  let s1 := snd (run (construct c) (initial mesh_world)) in
  let s2 := snd (run (perform_all 0 [OpOpen "127.0.0.1:4002"]) s1) in
  fst (run (Open 0 "127.0.0.1:4002") s1) = Returned None ∧
  run (Transport_Addr 0) s2 = (Returned {| Hostname := "" |}, s2).
Proof.
  split; [reflexivity|].
  exact (proj2 advertised_address_is_immutable
           (WithTLS "/etc/mesh/cert.pem" "/etc/mesh/key.pem" true)
           [OpOpen "127.0.0.1:4002"] (initial mesh_world) eq_refl).
Defined.

(** C9: a transport created by any of the three constructors has an empty
    source IP, and keeps it: in every session, every dial the transport
    makes has a dialer without local address, so the system chooses the
    local end. *)
Theorem constructed_transport_never_pins_source
    (c : Constructor) (ops : list Op) (s : State) :
  let t := length (heap s) in
  let s1 := snd (run (construct c) s) in
  let s2 := snd (run (perform_all t ops) s1) in
  (∃ v, heap s1 !! t = Some v ∧ srcIP v = "") ∧
  (∃ v, heap s2 !! t = Some v ∧ srcIP v = "") ∧
  Forall (λ d, LocalAddr d = None) (dialers (calls_since (length (trace s1)) s2)).
Proof.
  intros t s1 s2. subst t s1 s2.
  destruct (construct_run c s) as (v0 & Hrun & Hsrc & _). rewrite Hrun. cbn [snd].
  pose proof (lookup_allocated (heap s) v0) as H0.
  split; [exists v0; auto|]. split.
  - destruct (perform_all_config (length (heap s)) ops
                (with_heap (heap s ++ [v0]) s) v0 H0)
      as (v' & Hv' & _ & _ & _ & _ & _ & Hs).
    exists v'. split; [assumption | congruence].
  - destruct (perform_all_unpinned (length (heap s)) ops
                (with_heap (heap s ++ [v0]) s) v0 H0 Hsrc) as (evs & Ht & Hall).
    unfold calls_since. rewrite Ht, drop_app_length.
    apply unpinned_dialers. assumption.
Qed.

(** C10: the TLS constructor sets [remoteEncrypted] whatever its
    arguments; so a transport built without adoption that has a
    certificate configured for its listener dials with TLS, in every
    session; only the adopting constructor gives a transport whose
    listener is a TLS listener and whose dials are plain. *)
Theorem TLS_constructor_encrypts_dials :
  (∀ (certFile keyPath : string) (skipVerify : bool) (s : State),
     ∃ v, heap (snd (run (NewTLSTransport certFile keyPath skipVerify) s))
            !! length (heap s) = Some v ∧
          remoteEncrypted v = true) ∧
  (∀ (c : Constructor) (ops : list Op) (s : State),
     adopting c = false →
     let t := length (heap s) in
     let s2 := snd (run (perform_all t ops) (snd (run (construct c) s))) in
     ∃ v, heap s2 !! t = Some v ∧
          (certFile v ≠ "" →
           remoteEncrypted v = true ∧
           ∀ (addr : string) (timeout : Duration),
             ∃ d conf,
               calls_since (length (trace s2)) (snd (run (Dial t addr timeout) s2)) =
                 [Called (log_Println ["doing a TLS dial"]);
                  Called (tls_DialWithDialer d "tcp" addr conf)])) ∧
  (∀ (l : option Listener) (config : option tls_Config) (skipVerify : bool)
     (addr : string) (s : State),
     ∃ v, heap (snd (run (NewTransportFromListener (Some (TLSListener l config))
                            false skipVerify addr) s))
            !! length (heap s) = Some v ∧
          ln v = Some (TLSListener l config) ∧ remoteEncrypted v = false).
Proof.
  split; [|split].
  - intros cf kp sv s. eexists. split; [apply lookup_allocated | reflexivity].
  - intros c ops s Hc t s2. subst t s2.
    destruct (construct_run c s) as (v0 & Hrun & _ & Hplain). rewrite Hrun. cbn [snd].
    destruct (Hplain Hc) as (_ & _ & Htls).
    destruct (perform_all_config (length (heap s)) ops
                (with_heap (heap s ++ [v0]) s) v0 (lookup_allocated _ _))
      as (v' & Hv' & _ & Hcf & _ & Henc & _).
    exists v'. split; [assumption|]. intros Hne.
    assert (He : remoteEncrypted v' = true).
    { rewrite Henc. apply Htls. rewrite <- Hcf. assumption. }
    split; [assumption|]. intros addr timeout.
    rewrite (Dial_calls _ addr timeout _ _ Hv'), He. eauto.
  - intros l config sv addr s. eexists.
    split; [apply lookup_allocated | split; reflexivity].
Qed.

Lemma TLS_constructor_encrypts_dials_witness :
  let c := WithTLS "/etc/mesh/cert.pem" "/etc/mesh/key.pem" false in
  let s2 := snd (run (perform_all 0 [OpOpen "127.0.0.1:4002"])
                   (snd (run (construct c) (initial mesh_world)))) in
  ∃ v, heap s2 !! 0%nat = Some v ∧
       (certFile v ≠ "" →
        remoteEncrypted v = true ∧
        ∀ (addr : string) (timeout : Duration),
          ∃ d conf,
            calls_since (length (trace s2)) (snd (run (Dial 0 addr timeout) s2)) =
              [Called (log_Println ["doing a TLS dial"]);
               Called (tls_DialWithDialer d "tcp" addr conf)]).
Proof.
  exact (proj1 (proj2 TLS_constructor_encrypts_dials)
           (WithTLS "/etc/mesh/cert.pem" "/etc/mesh/key.pem" false)
           [OpOpen "127.0.0.1:4002"] (initial mesh_world) eq_refl).
Defined.

(** * Further properties of the package *)

(** ** Footprints of the methods *)

Section Footprint.
Context (W : ptr → Prop).

Lemma writes_bind {A B : Type} (m : Go A) (h : A → Go B) :
  Writes W m → (∀ a, Writes W (h a)) → Writes W (bind m h).
Proof.
  intros Hm Hh. induction Hm; simpl; try (constructor; auto); auto.
Qed.

(** Outside its footprint a program leaves the heap as it is. *)
Lemma writes_run {A : Type} (m : Go A) :
  Writes W m →
  ∀ s : State,
    length (heap (snd (run m s))) = length (heap s) ∧
    ∀ p, ¬ W p → heap (snd (run m s)) !! p = heap s !! p.
Proof.
  induction 1 as [a|msg|q k Hk IH|q f k Hq Hk IH|X c k Hk IH]; intros s; simpl.
  - auto.
  - auto.
  - destruct (heap s !! q); [apply IH | auto].
  - destruct (heap s !! q) as [u|]; [|auto].
    destruct (IH (with_heap (<[q := f u]> (heap s)) s)) as (Hlen & Hframe).
    simpl in *. rewrite length_insert in Hlen. split; [assumption|].
    intros p Hp. rewrite Hframe by assumption.
    apply list_lookup_insert_ne. intros ->. contradiction.
  - destruct (os c (world s)) as [[x|msg|] w]; simpl; [|auto|auto].
    apply (IH x (after_call c w s)).
Qed.
End Footprint.

Lemma nowhere_run {A : Type} (m : Go A) (s : State) :
  Writes nowhere m → heap (snd (run m s)) = heap s.
Proof.
  intros Hm. destruct (writes_run nowhere m Hm s) as (_ & Hframe).
  apply list_eq. intros p. apply Hframe. unfold nowhere. tauto.
Qed.

Ltac footprint :=
  unfold Open, Dial, Accept, Close, Transport_Addr, createTLSConfig, invoke,
    field, call, assign_ln;
  repeat (simpl;
    match goal with
    | |- ∀ _, _ => intros
    | |- Writes _ (match ?x with _ => _ end) => destruct x
    | |- Writes _ (bind (match ?x with _ => _ end) _) => destruct x
    | |- Writes _ _ => constructor
    | |- _ = _ => reflexivity
    end).

Lemma Open_writes (t : ptr) (addr : string) : Writes (λ p, p = t) (Open t addr).
Proof. footprint. Qed.

Lemma Dial_writes (W : ptr → Prop) (t : ptr) (addr : string) (timeout : Duration) :
  Writes W (Dial t addr timeout).
Proof. footprint. Qed.

Lemma Accept_writes (W : ptr → Prop) (t : ptr) : Writes W (Accept t).
Proof. footprint. Qed.

Lemma Close_writes (W : ptr → Prop) (t : ptr) : Writes W (Close t).
Proof. footprint. Qed.

Lemma Addr_writes (W : ptr → Prop) (t : ptr) : Writes W (Transport_Addr t).
Proof. footprint. Qed.

Lemma createTLSConfig_writes (W : ptr → Prop) (certFile keyFile : string) :
  Writes W (createTLSConfig certFile keyFile).
Proof. footprint. Qed.

Lemma perform_all_writes (t : ptr) (ops : list Op) :
  Writes (λ p, p = t) (perform_all t ops).
Proof.
  induction ops as [|o ops IH]; cbn [perform_all]; [constructor|].
  apply writes_bind; [|intros; exact IH].
  destruct o; unfold perform; (apply writes_bind; [|intros; constructor]).
  - apply Open_writes.
  - apply Dial_writes.
  - apply Accept_writes.
  - apply Close_writes.
  - apply Addr_writes.
Qed.

(** X1: [Dial], [Accept], [Close] and [Addr] only read the transport: in
    every state, whatever they return, the heap of transports is exactly
    as before (the listener field stays set after [Close]). *)
Theorem only_Open_writes (t : ptr) (s : State) :
  (∀ (addr : string) (timeout : Duration),
     heap (snd (run (Dial t addr timeout) s)) = heap s) ∧
  heap (snd (run (Accept t) s)) = heap s ∧
  heap (snd (run (Close t) s)) = heap s ∧
  heap (snd (run (Transport_Addr t) s)) = heap s.
Proof.
  repeat split; intros; apply nowhere_run.
  - apply Dial_writes.
  - apply Accept_writes.
  - apply Close_writes.
  - apply Addr_writes.
Qed.

(** X2: method calls on one transport never change another: after any
    sequence of calls on [t], every other object of the heap is what it
    was, and no object was allocated. *)
Theorem methods_touch_only_receiver (t : ptr) (ops : list Op) (s : State) (p : ptr) :
  p ≠ t →
  heap (snd (run (perform_all t ops) s)) !! p = heap s !! p ∧
  length (heap (snd (run (perform_all t ops) s))) = length (heap s).
Proof.
  intros Hne.
  destruct (writes_run _ _ (perform_all_writes t ops) s) as (Hlen & Hframe).
  split; [apply Hframe; assumption | assumption].
Qed.

(** ** Listeners and their sockets *)

Lemma listening_socket_of : ∀ (l : Listener) (w : World),
  listening w l =
    match socket_of l with
    | Some fd =>
      match sockets w !! fd with
      | Some sk => sock_open sk
      | None => false
      end
    | None => false
    end.
Proof.
  fix IH 1. intros [fd|[l'|] config] w; simpl; [reflexivity | apply IH | reflexivity].
Qed.

Lemma os_Close_socket_of : ∀ (l : Listener) (w : World) (fd : nat),
  socket_of l = Some fd → os_Close l w = os_Close (TCPListener fd) w.
Proof.
  fix IH 1. intros [fd0|[l'|] config] w fd; simpl.
  - intros [= ->]. reflexivity.
  - intros H. rewrite (IH l' w fd H). reflexivity.
  - discriminate.
Qed.

Lemma os_Accept_closed : ∀ (l : Listener) (w : World) (fd : nat) (sk : Socket),
  socket_of l = Some fd → sockets w !! fd = Some sk → sock_open sk = false →
  os_Accept l w =
    (Returned (None, Some (OpError "accept" (sock_addr sk) closed_connection)), w).
Proof.
  fix IH 1. intros [fd0|[l'|] config] w fd sk; simpl.
  - intros [= ->] -> ->. reflexivity.
  - intros H Hsk Hopen. rewrite (IH l' w fd sk H Hsk Hopen). reflexivity.
  - discriminate.
Qed.

Lemma os_Accept_stdlog : ∀ (l : Listener) (w : World),
  stdlog (snd (os_Accept l w)) = stdlog w.
Proof.
  fix IH 1. intros [fd|[l'|] config] w; simpl.
  - destruct (sockets w !! fd) as [sk|]; [|reflexivity].
    destruct (sock_open sk); [|reflexivity].
    destruct (backlog sk); reflexivity.
  - specialize (IH l' w).
    destruct (os_Accept l' w) as [[[[c|] [e|]]|msg|] w']; exact IH.
  - reflexivity.
Qed.

Lemma os_Listen_tcp (addr : string) (w : World) :
  os_Listen "tcp" addr w =
    if decide (addr ∈ unbindable w) then
      ((None, Some (OpError "listen" addr "cannot bind")), w)
    else if bound w addr then
      ((None, Some (OpError "listen" addr "address already in use")), w)
    else
      ((Some (TCPListener (length (sockets w))), None),
       with_sockets (sockets w ++ [{| sock_addr := addr; sock_open := true;
                                      backlog := [] |}]) w).
Proof.
  unfold os_Listen. destruct (decide ("tcp" ≠ "tcp")); [congruence | reflexivity].
Qed.


(** ** Open: every way it ends *)

(** What [Open] returns, read off the system: the bind error, else the
    error of the loader when a certificate is configured, else [nil]. *)
Lemma Open_outcome (t : ptr) (addr : string) (s : State) (v : Transport) :
  heap s !! t = Some v →
  fst (run (Open t addr) s) =
    if decide (addr ∈ unbindable (world s)) then
      Returned (Some (OpError "listen" addr "cannot bind"))
    else if bound (world s) addr then
      Returned (Some (OpError "listen" addr "address already in use"))
    else if decide (certFile v ≠ "") then
      Returned (snd (os_LoadX509KeyPair (certFile v) (certKey v) (world s)))
    else Returned None.
Proof.
  intros H. rewrite (Open_run _ _ _ _ H), os_Listen_tcp. cbv zeta.
  destruct (decide (addr ∈ unbindable (world s))); [reflexivity|].
  destruct (bound (world s) addr); [reflexivity|].
  destruct (decide (certFile v ≠ "")); [|reflexivity].
  rewrite os_LoadX509KeyPair_sockets.
  destruct (os_LoadX509KeyPair _ _ _) as [cert [e|]]; reflexivity.
Qed.

(** The state a successful [Open] leaves. *)
Lemma Open_ok (t : ptr) (addr : string) (s s1 : State) (v : Transport) :
  heap s !! t = Some v →
  run (Open t addr) s = (Returned None, s1) →
  (addr ∉ unbindable (world s)) ∧ bound (world s) addr = false ∧
  world s1 = with_sockets (sockets (world s) ++
               [{| sock_addr := addr; sock_open := true; backlog := [] |}]) (world s) ∧
  ∃ l, socket_of l = Some (length (sockets (world s))) ∧
       heap s1 = <[t := set_ln (Some l) v]> (heap s).
Proof.
  intros H. rewrite (Open_run _ _ _ _ H), os_Listen_tcp. cbv zeta.
  destruct (decide (addr ∈ unbindable (world s))); [discriminate|].
  destruct (bound (world s) addr); [discriminate|].
  destruct (decide (certFile v ≠ "")).
  - destruct (os_LoadX509KeyPair _ _ _) as [cert [e|]]; [discriminate|].
    intros [= <-]. simpl. repeat split; try assumption.
    eexists. split; [|reflexivity]. reflexivity.
  - intros [= <-]. simpl. repeat split; try assumption.
    eexists. split; [|reflexivity]. reflexivity.
Qed.







Lemma lookup_new_socket (ss : list Socket) (sk : Socket) :
  (ss ++ [sk]) !! length ss = Some sk.
Proof. apply list_lookup_middle. reflexivity. Qed.

Lemma shut_new_socket (ss : list Socket) (sk : Socket) :
  <[length ss := shut sk]> (ss ++ [sk]) = ss ++ [shut sk].
Proof.
  rewrite insert_app_r_alt by lia. rewrite Nat.sub_diag. reflexivity.
Qed.



(** ** Close and what follows it *)

Lemma Close_socket (t : ptr) (s : State) (v : Transport) (l : Listener) (fd : nat)
    (sk : Socket) :
  heap s !! t = Some v → ln v = Some l →
  socket_of l = Some fd → sockets (world s) !! fd = Some sk →
  run (Close t) s =
    if sock_open sk then
      (Returned None,
       after_call (Listener_Close l)
         (with_sockets (<[fd := shut sk]> (sockets (world s))) (world s)) s)
    else
      (Returned (Some (OpError "close" (sock_addr sk) closed_connection)),
       after_call (Listener_Close l) (world s) s).
Proof.
  intros H Hln Hfd Hsk. rewrite (Close_run _ _ _ H), Hln. unfold call. simpl.
  rewrite (os_Close_socket_of _ _ _ Hfd). simpl. rewrite Hsk.
  destruct (sock_open sk); reflexivity.
Qed.

(** X7: [Open] followed by [Close] leaves the address free: [Close]
    returns no error, no open socket holds the address afterwards, and
    [Open] on the same address succeeds again. *)
Theorem Open_then_Close_frees_address (t : ptr) (addr : string) (s s1 : State)
    (v : Transport) :
  heap s !! t = Some v →
  run (Open t addr) s = (Returned None, s1) →
  let r := run (Close t) s1 in
  fst r = Returned None ∧
  bound (world (snd r)) addr = false ∧
  fst (run (Open t addr) (snd r)) = Returned None.
Proof.
  intros H Hrun r. subst r.
  destruct (Open_ok _ _ _ _ _ H Hrun) as (Hunb & Hfree & Hw & l & Hl & Hh).
  assert (Hlt : t < length (heap s)) by (eapply lookup_lt_Some; eassumption).
  assert (H1 : heap s1 !! t = Some (set_ln (Some l) v)).
  { rewrite Hh. apply list_lookup_insert_eq. assumption. }
  assert (Hsk : sockets (world s1) !! length (sockets (world s)) =
                Some {| sock_addr := addr; sock_open := true; backlog := [] |}).
  { rewrite Hw. simpl. apply lookup_new_socket. }
  rewrite (Close_socket _ _ _ _ _ _ H1 eq_refl Hl Hsk). cbn [sock_open fst snd].
  assert (Hb : bound (with_sockets
                 (<[length (sockets (world s)) :=
                      shut {| sock_addr := addr; sock_open := true; backlog := [] |}]>
                    (sockets (world s1))) (world s1)) addr = false).
  { rewrite Hw. simpl. rewrite shut_new_socket.
    unfold bound in *. simpl. rewrite existsb_app, Hfree. reflexivity. }
  split; [reflexivity|]. split; [exact Hb|].
  pose proof (Open_outcome t addr s v H) as Hfirst. rewrite Hrun in Hfirst.
  rewrite (Open_outcome t addr _ (set_ln (Some l) v)) by exact H1.
  cbn [world after_call]. rewrite Hb. rewrite Hw. simpl.
  simpl in Hfirst. rewrite Hfree in Hfirst.
  destruct (decide (addr ∈ unbindable (world s))); [contradiction|].
  destruct (decide (certFile v ≠ "")); [|reflexivity].
  rewrite Hfirst. reflexivity.
Qed.

Lemma Open_then_Close_frees_address_witness :
  bound (world mesh_state_open) "127.0.0.1:4002" = true ∧
  bound (world mesh_state_closed) "127.0.0.1:4002" = false ∧
  fst (run (Open 0 "127.0.0.1:4002") mesh_state_closed) = Returned None.
Proof.
  split; [reflexivity|].
  exact (proj2 (Open_then_Close_frees_address 0 "127.0.0.1:4002" mesh_state
                  mesh_state_open tls_node eq_refl eq_refl)).
Defined.



(** X9: [Close] does not clear the listener field, so it is not
    idempotent on an open transport: the first [Close] of a listening
    listener returns no error, the second one closes the same listener
    again and returns its error. *)
Theorem Close_twice_returns_error (t : ptr) (s : State) (v : Transport) (l : Listener) :
  heap s !! t = Some v →
  ln v = Some l →
  listening (world s) l = true →
  let r1 := run (Close t) s in
  let r2 := run (Close t) (snd r1) in
  fst r1 = Returned None ∧
  heap (snd r1) !! t = Some v ∧
  (∃ e, fst r2 = Returned (Some e)) ∧
  calls_since (length (trace s)) (snd r2) =
    [Called (Listener_Close l); Called (Listener_Close l)].
Proof.
  intros H Hln Hlive r1 r2. subst r1 r2.
  rewrite listening_socket_of in Hlive.
  destruct (socket_of l) as [fd|] eqn:Hfd; [|discriminate].
  destruct (sockets (world s) !! fd) as [sk|] eqn:Hsk; [|discriminate].
  assert (Hlt : fd < length (sockets (world s)))
    by (eapply lookup_lt_Some; eassumption).
  rewrite (Close_socket _ _ _ _ _ _ H Hln Hfd Hsk), Hlive. cbn [fst snd].
  split; [reflexivity|]. split; [exact H|].
  assert (Hsk' : sockets (world (after_call (Listener_Close l)
                   (with_sockets (<[fd := shut sk]> (sockets (world s))) (world s)) s))
                 !! fd = Some (shut sk)).
  { simpl. apply list_lookup_insert_eq. assumption. }
  rewrite (Close_socket t (after_call _ _ s) v l fd (shut sk) H Hln Hfd Hsk').
  cbn [shut sock_open fst snd].
  split; [eauto|].
  unfold calls_since. simpl. rewrite <- app_assoc, drop_app_length. reflexivity.
Qed.

Lemma Close_twice_returns_error_witness :
  fst (run (Close 0) mesh_state_open) = Returned None ∧
  fst (run (Close 0) mesh_state_closed) =
    Returned (Some (OpError "close" "127.0.0.1:4002" closed_connection)).
Proof.
  split; [reflexivity|].
  destruct (Close_twice_returns_error 0 mesh_state_open _ _ eq_refl eq_refl eq_refl)
    as (_ & _ & _ & _).
  reflexivity.
Defined.

(** X10: after [Close], [Accept] on the same transport does not block and
    does not panic: it returns no connection and the error of the closed
    listener, and logs that error. *)
Theorem Accept_after_Close_returns_error (t : ptr) (s : State) (v : Transport)
    (l : Listener) :
  heap s !! t = Some v →
  ln v = Some l →
  listening (world s) l = true →
  let s1 := snd (run (Close t) s) in
  let r := run (Accept t) s1 in
  ∃ e, fst r = Returned (None, Some e) ∧
       stdlog (world (snd r)) = stdlog (world s) ++ [["error accepting: "; Error e]].
Proof.
  intros H Hln Hlive s1 r. subst s1 r.
  rewrite listening_socket_of in Hlive.
  destruct (socket_of l) as [fd|] eqn:Hfd; [|discriminate].
  destruct (sockets (world s) !! fd) as [sk|] eqn:Hsk; [|discriminate].
  assert (Hlt : fd < length (sockets (world s)))
    by (eapply lookup_lt_Some; eassumption).
  rewrite (Close_socket _ _ _ _ _ _ H Hln Hfd Hsk), Hlive. cbn [snd].
  rewrite (Accept_run _ _ v) by exact H. rewrite Hln. unfold call. simpl.
  rewrite (os_Accept_closed l _ fd (shut sk) Hfd);
    [|simpl; apply list_lookup_insert_eq; assumption | reflexivity].
  simpl. eexists. split; reflexivity.
Qed.

Lemma Accept_after_Close_returns_error_witness :
  fst (run (Accept 0) mesh_state_closed) =
    Returned (None, Some (OpError "accept" "127.0.0.1:4002" closed_connection)).
Proof.
  destruct (Accept_after_Close_returns_error 0 mesh_state_open _ _
              eq_refl eq_refl eq_refl) as (e & _ & _).
  reflexivity.
Defined.

(** ** Accept *)

(** X11: on a transport with a listener, [Accept] hands back what the
    listener's [Accept] returns, connection and error unchanged, and
    writes one log line exactly when the error is not [nil]; while the
    listener blocks, so does [Accept], and nothing is logged. *)
Theorem Accept_returns_listener_result (t : ptr) (s : State) (v : Transport)
    (l : Listener) :
  heap s !! t = Some v →
  ln v = Some l →
  let r := run (Accept t) s in
  (∀ c err w1, os_Accept l (world s) = (Returned (c, err), w1) →
     fst r = Returned (c, err) ∧
     stdlog (world (snd r)) = stdlog (world s) ++ accept_log err) ∧
  (∀ w1, os_Accept l (world s) = (Blocked, w1) →
     fst r = Blocked ∧ stdlog (world (snd r)) = stdlog (world s)).
Proof.
  intros H Hln r. subst r. rewrite (Accept_run _ _ _ H), Hln. unfold call. simpl.
  pose proof (os_Accept_stdlog l (world s)) as Hlog.
  split.
  - intros c err w1 Hacc. rewrite Hacc in *. simpl in *.
    destruct err as [e|]; simpl; rewrite ?Hlog, ?app_nil_r; auto.
  - intros w1 Hacc. rewrite Hacc in *. simpl in *. auto.
Qed.

Lemma Accept_returns_listener_result_witness :
  fst (run (Accept 0) mesh_state_pending) =
    Returned (Some (TLSServerConn (TCPConn None "10.0.0.2:53211")
                      (Some (server_config {| Certificate := ["node-1"];
                                              PrivateKey := "key-1" |}))), None) ∧
  fst (run (Accept 0) mesh_state_open) = Blocked.
Proof.
  split.
  - exact (proj1 (proj1 (Accept_returns_listener_result 0 mesh_state_pending _ _
                           eq_refl eq_refl) _ _ _ eq_refl)).
  - exact (proj1 (proj2 (Accept_returns_listener_result 0 mesh_state_open _ _
                           eq_refl eq_refl) _ eq_refl)).
Defined.

(** ** Dial *)



(** X13: every [Dial] makes exactly one dial, whose dialer carries the
    timeout of the caller; its local address is [nil] when the source IP
    of the transport is empty, and otherwise the TCP address of that IP
    with port 0. *)
Theorem Dial_builds_dialer (t : ptr) (addr : string) (timeout : Duration)
    (s : State) (v : Transport) :
  heap s !! t = Some v →
  dialers (calls_since (length (trace s)) (snd (run (Dial t addr timeout) s))) =
    [{| Timeout := timeout;
        LocalAddr := if decide (srcIP v = "") then None
                     else Some {| IP := ParseIP (srcIP v); Port := 0 |} |}].
Proof.
  intros H. rewrite (Dial_calls _ _ _ _ _ H). unfold dialer_of.
  destruct (decide (srcIP v ≠ "")), (decide (srcIP v = "")); try contradiction;
    destruct (remoteEncrypted v); try reflexivity.
  all: exfalso; destruct (decide (srcIP v = "")); contradiction.
Qed.

Lemma Dial_builds_dialer_witness :
  dialers (calls_since 0 (snd (run (Dial 0 "10.0.0.2:4002" 2000) pinned_state))) =
    [{| Timeout := 2000;
        LocalAddr := Some {| IP := ParseIP "10.0.0.1"; Port := 0 |} |}] ∧
  fst (run (Dial 0 "10.0.0.2:4002" 2000) pinned_state) =
    Returned (Some (TCPConn (Some "10.0.0.1") "10.0.0.2:4002"), None).
Proof.
  split; [|reflexivity].
  exact (Dial_builds_dialer 0 "10.0.0.2:4002" 2000 pinned_state pinned_node eq_refl).
Defined.



(** ** createTLSConfig *)

(** X15: [createTLSConfig] returns either a configuration and no error, or
    no configuration and the error of the loader, never both and never
    neither; a configuration it returns holds exactly the loaded
    certificate and the zero value in every other field.  It changes
    neither the heap nor the system. *)
Theorem createTLSConfig_config_or_error (certFile keyFile : string) (s : State) :
  let r := run (createTLSConfig certFile keyFile) s in
  heap (snd r) = heap s ∧ world (snd r) = world s ∧
  ∃ config err,
    fst r = Returned (config, err) ∧
    (config = None ↔ err ≠ None) ∧
    err = snd (os_LoadX509KeyPair certFile keyFile (world s)) ∧
    ∀ c, config = Some c →
      c = {| Certificates := [fst (os_LoadX509KeyPair certFile keyFile (world s))];
             InsecureSkipVerify := false; ClientAuth := NoClientCert |}.
Proof.
  intros r. subst r. unfold createTLSConfig, call. simpl.
  destruct (os_LoadX509KeyPair certFile keyFile (world s)) as [cert [e|]]; simpl.
  - split; [reflexivity|]. split; [reflexivity|]. exists None, (Some e).
    split; [reflexivity|]. split; [|split; [reflexivity | discriminate]].
    split; [intros _; discriminate | intros _; reflexivity].
  - split; [reflexivity|]. split; [reflexivity|]. eexists (Some _), None.
    split; [reflexivity|]. split; [|split; [reflexivity|]].
    + split; [discriminate | intros Hne; contradiction].
    + intros c [= <-]. reflexivity.
Qed.

(** ** The TLS constructor without a certificate *)

(** X16: a transport built by the TLS constructor with an empty
    certificate path opens a plain listener: [Open] never reads the key
    path, and on success stores the raw TCP listener, while
    [remoteEncrypted] stays set for its dials. *)
Theorem TLS_constructor_without_certificate (keyPath addr : string)
    (skipVerify : bool) (s : State) :
  let t := length (heap s) in
  let s0 := snd (run (NewTLSTransport "" keyPath skipVerify) s) in
  let r := run (Open t addr) s0 in
  calls_since (length (trace s)) (snd r) = [Called (net_Listen "tcp" addr)] ∧
  (fst r = Returned None →
   ∃ v1, heap (snd r) !! t = Some v1 ∧
         ln v1 = Some (TCPListener (length (sockets (world s)))) ∧
         remoteEncrypted v1 = true).
Proof.
  intros t s0 r. subst t s0 r. unfold NewTLSTransport. cbn [run snd].
  match goal with
  | |- context [with_heap (heap s ++ [?v0]) s] =>
    rewrite (Open_run (length (heap s)) addr (with_heap (heap s ++ [v0]) s) v0
               (lookup_allocated (heap s) v0))
  end.
  rewrite os_Listen_tcp.
  cbv zeta. cbn [world with_heap certFile]. unfold calls_since.
  destruct (decide (addr ∈ unbindable (world s))).
  { simpl. rewrite drop_app_length. split; [reflexivity | discriminate]. }
  destruct (bound (world s) addr).
  { simpl. rewrite drop_app_length. split; [reflexivity | discriminate]. }
  destruct (decide ("" ≠ "")); [congruence|].
  simpl. rewrite drop_app_length. split; [reflexivity|]. intros _.
  eexists. split.
  - apply list_lookup_insert_eq. rewrite length_app. simpl. lia.
  - split; reflexivity.
Qed.

Lemma TLS_constructor_without_certificate_witness :
  let s0 := snd (run (NewTLSTransport "" "/etc/mesh/key.pem" false) (initial mesh_world)) in
  ∃ v1, heap (snd (run (Open 0 "127.0.0.1:4002") s0)) !! 0%nat = Some v1 ∧
        ln v1 = Some (TCPListener 0) ∧ remoteEncrypted v1 = true.
Proof.
  exact (proj2 (TLS_constructor_without_certificate "/etc/mesh/key.pem"
                  "127.0.0.1:4002" false (initial mesh_world)) eq_refl).
Defined.

Lemma methods_touch_only_receiver_witness :
  heap (snd (run (perform_all 0 [OpOpen "127.0.0.1:4002"; OpClose])
               {| heap := [tls_node; pinned_node]; world := mesh_world; trace := [] |}))
    !! 1%nat = Some pinned_node.
Proof.
  exact (proj1 (methods_touch_only_receiver 0 [OpOpen "127.0.0.1:4002"; OpClose]
                  {| heap := [tls_node; pinned_node]; world := mesh_world;
                     trace := [] |} 1 ltac:(discriminate))).
Defined.

(** ** Panics *)

Lemma os_Accept_sockets : ∀ (l : Listener) (w : World),
  length (sockets (snd (os_Accept l w))) = length (sockets w).
Proof.
  fix IH 1. intros [fd|[l'|] config] w; simpl.
  - destruct (sockets w !! fd) as [sk|]; [|reflexivity].
    destruct (sock_open sk); [|reflexivity].
    destruct (backlog sk); simpl; [reflexivity | apply length_insert].
  - specialize (IH l' w).
    destruct (os_Accept l' w) as [[[[c|] [e|]]|msg|] w']; exact IH.
  - reflexivity.
Qed.

Lemma os_Close_sockets : ∀ (l : Listener) (w : World),
  length (sockets (snd (os_Close l w))) = length (sockets w).
Proof.
  fix IH 1. intros [fd|[l'|] config] w; simpl.
  - destruct (sockets w !! fd) as [sk|]; [|reflexivity].
    destruct (sock_open sk); simpl; [apply length_insert | reflexivity].
  - apply IH.
  - reflexivity.
Qed.

Lemma os_sockets_grow {X : Type} (c : Call X) (w : World) :
  (length (sockets w) ≤ length (sockets (snd (os c w))))%nat.
Proof.
  destruct c; simpl; try lia.
  - unfold os_Listen.
    destruct (decide (network ≠ "tcp")); simpl; [lia|].
    destruct (decide (address ∈ unbindable w)); simpl; [lia|].
    destruct (bound w address); simpl; [lia|]. rewrite length_app. lia.
  - rewrite os_Accept_sockets. lia.
  - rewrite os_Close_sockets. lia.
Qed.

(** The system never forgets a socket. *)
Lemma run_sockets_grow {A : Type} (m : Go A) :
  ∀ s : State,
    (length (sockets (world s)) ≤ length (sockets (world (snd (run m s)))))%nat.
Proof.
  induction m as [a|msg|v k IH|p k IH|p f k IH|X c k IH]; intros s; simpl.
  - lia.
  - lia.
  - apply (IH _ (with_heap _ s)).
  - destruct (heap s !! p); [apply IH | simpl; lia].
  - destruct (heap s !! p); [apply (IH (with_heap _ s)) | simpl; lia].
  - pose proof (os_sockets_grow c (world s)) as Hos.
    destruct (os c (world s)) as [[x|msg|] w]; simpl in *; [|lia|lia].
    etransitivity; [exact Hos | apply (IH x (after_call c w s))].
Qed.

Lemma os_Accept_no_panic : ∀ (l : Listener) (w : World) (fd : nat) (msg : string),
  socket_of l = Some fd → fst (os_Accept l w) ≠ Panicked msg.
Proof.
  fix IH 1. intros [fd0|[l'|] config] w fd msg; simpl.
  - intros _. destruct (sockets w !! fd0) as [sk|]; [|discriminate].
    destruct (sock_open sk); [|discriminate]. destruct (backlog sk); discriminate.
  - intros H. specialize (IH l' w fd msg H).
    destruct (os_Accept l' w) as [[[[c|] [e|]]|msg'|] w']; simpl in *;
      try discriminate; exact IH.
  - discriminate.
Qed.

Lemma os_Close_no_panic (l : Listener) (w : World) (fd : nat) (msg : string) :
  socket_of l = Some fd → fst (os_Close l w) ≠ Panicked msg.
Proof.
  intros H. rewrite (os_Close_socket_of _ _ _ H). simpl.
  destruct (sockets w !! fd) as [sk|]; [|discriminate].
  destruct (sock_open sk); discriminate.
Qed.

Lemma grounded_grow (w w' : World) (v : Transport) :
  (length (sockets w) ≤ length (sockets w'))%nat → grounded w v → grounded w' v.
Proof.
  intros Hle Hg l Hl. destruct (Hg l Hl) as (fd & Hfd & Hlt). exists fd. split; [assumption | lia].
Qed.

(** Each method keeps the listener of the transport grounded. *)
Lemma perform_grounded (t : ptr) (o : Op) (s : State) (v : Transport) :
  heap s !! t = Some v → grounded (world s) v →
  ∃ v', heap (snd (run (perform t o) s)) !! t = Some v' ∧
        grounded (world (snd (run (perform t o) s))) v'.
Proof.
  intros H Hg.
  pose proof (run_sockets_grow (perform t o) s) as Hgrow.
  assert (Hread : ∀ m : Go unit, Writes nowhere m →
            ∃ v', heap (snd (run m s)) !! t = Some v' ∧
                  grounded (world (snd (run m s))) v').
  { intros m Hm. exists v. rewrite (nowhere_run m s Hm). split; [assumption|].
    eapply grounded_grow; [apply run_sockets_grow | assumption]. }
  destruct o as [addr|addr timeout| | |]; unfold perform in *.
  - rewrite run_bind in *. rewrite (Open_run _ _ _ _ H), os_Listen_tcp in *.
    cbv zeta in *.
    assert (Hlt : t < length (heap s)) by (eapply lookup_lt_Some; eassumption).
    destruct (decide (addr ∈ unbindable (world s))); simpl in *.
    { exists v. auto. }
    destruct (bound (world s) addr); simpl in *.
    { exists v. auto. }
    destruct (decide (certFile v ≠ "")).
    + destruct (os_LoadX509KeyPair _ _ _) as [cert [e|]]; simpl in *.
      * exists v. split; [assumption|]. eapply grounded_grow; [|exact Hg]. exact Hgrow.
      * eexists. split; [apply list_lookup_insert_eq; assumption|].
        intros l [= <-]. exists (length (sockets (world s))).
        split; [reflexivity|]. simpl. rewrite length_app. simpl. lia.
    + simpl in *. eexists. split; [apply list_lookup_insert_eq; assumption|].
      intros l [= <-]. exists (length (sockets (world s))).
      split; [reflexivity|]. simpl. rewrite length_app. simpl. lia.
  - apply Hread, writes_bind; [apply Dial_writes | intros; constructor].
  - apply Hread, writes_bind; [apply Accept_writes | intros; constructor].
  - apply Hread, writes_bind; [apply Close_writes | intros; constructor].
  - apply Hread, writes_bind; [apply Addr_writes | intros; constructor].
Qed.

Lemma perform_all_grounded (t : ptr) (ops : list Op) :
  ∀ (s : State) (v : Transport),
    heap s !! t = Some v → grounded (world s) v →
    ∃ v', heap (snd (run (perform_all t ops) s)) !! t = Some v' ∧
          grounded (world (snd (run (perform_all t ops) s))) v'.
Proof.
  induction ops as [|o ops IH]; intros s v H Hg; cbn [perform_all].
  - exists v. auto.
  - rewrite run_bind.
    destruct (perform_grounded t o s v H Hg) as (v1 & H1 & Hg1).
    destruct (run (perform t o) s) as [[[]|msg|] s1]; simpl in *.
    + apply (IH s1 v1 H1 Hg1).
    + exists v1. auto.
    + exists v1. auto.
Qed.

(** X17: on a transport built by the plain or the TLS constructor, after
    any sequence of method calls, the only method call that panics is
    [Accept] while the transport has no listener; in particular [Accept]
    never panics once an [Open] has stored a listener. *)
Theorem only_Accept_without_listener_panics (c : Constructor) (ops : list Op)
    (s : State) :
  adopting c = false →
  let t := length (heap s) in
  let s2 := snd (run (perform_all t ops) (snd (run (construct c) s))) in
  ∃ v, heap s2 !! t = Some v ∧
       ∀ (o : Op) (msg : string),
         fst (run (perform t o) s2) = Panicked msg → o = OpAccept ∧ ln v = None.
Proof.
  intros Hc t s2. subst t s2.
  destruct (construct_run c s) as (v0 & Hrun & _ & Hplain). rewrite Hrun. cbn [snd].
  destruct (Hplain Hc) as (Hnil & _).
  destruct (perform_all_grounded (length (heap s)) ops
              (with_heap (heap s ++ [v0]) s) v0 (lookup_allocated _ _))
    as (v & Hv & Hg).
  { intros l Hl. rewrite Hnil in Hl. discriminate. }
  remember (snd (run (perform_all (length (heap s)) ops)
                   (with_heap (heap s ++ [v0]) s))) as s2 eqn:Hs2.
  clear Hs2. exists v. split; [assumption|]. intros o msg.
  destruct o as [addr|addr timeout| | |]; unfold perform; rewrite run_bind.
  - pose proof (Open_outcome _ addr _ _ Hv) as Hout.
    destruct (run (Open _ addr) _) as [[e|msg'|] s3]; simpl in *; try discriminate.
    repeat destruct (decide _) in Hout; try discriminate;
      destruct (bound _ _) in Hout; discriminate.
  - rewrite (Dial_run _ _ _ _ _ Hv). destruct (remoteEncrypted v); discriminate.
  - rewrite (Accept_run _ _ _ Hv). destruct (ln v) as [l|] eqn:Hl; [|auto].
    destruct (Hg l Hl) as (fd & Hfd & _).
    pose proof (os_Accept_no_panic l (world s2) fd) as Hno.
    unfold call. simpl.
    destruct (os_Accept l _) as [[[conn [e|]]|msg'|] w]; simpl in *; try discriminate.
    intros [= <-]. exfalso. exact (Hno _ Hfd eq_refl).
  - rewrite (Close_run _ _ _ Hv). destruct (ln v) as [l|] eqn:Hl; [|discriminate].
    destruct (Hg l Hl) as (fd & Hfd & _).
    pose proof (os_Close_no_panic l (world s2) fd) as Hno.
    unfold call. simpl.
    destruct (os_Close l _) as [[e|msg'|] w]; simpl in *; try discriminate.
    intros [= <-]. exfalso. exact (Hno _ Hfd eq_refl).
  - rewrite (Addr_run _ _ _ Hv). discriminate.
Qed.

Lemma only_Accept_without_listener_panics_witness :
  let c := WithTLS "/etc/mesh/cert.pem" "/etc/mesh/key.pem" true in
  let s2 := snd (run (perform_all 0 [OpOpen "127.0.0.1:4002"; OpClose])
                   (snd (run (construct c) (initial mesh_world)))) in
  fst (run (Accept 0) s2) =
    Returned (None, Some (OpError "accept" "127.0.0.1:4002" closed_connection)) ∧
  ∃ v, heap s2 !! 0%nat = Some v ∧
       ∀ (o : Op) (msg : string),
         fst (run (perform 0 o) s2) = Panicked msg → o = OpAccept ∧ ln v = None.
Proof.
  split; [reflexivity|].
  exact (only_Accept_without_listener_panics
           (WithTLS "/etc/mesh/cert.pem" "/etc/mesh/key.pem" true)
           [OpOpen "127.0.0.1:4002"; OpClose] (initial mesh_world) eq_refl).
Defined.
